(** * csi-volume-recovery: a shallow embedding and its properties

    The Go program inspects the volumes mounted on a node, resolves the CSI
    driver behind each claim, asks the driver for its node capabilities and
    then either deletes the pod (RestartPod) or scales its top owner to zero
    and back (ScaleOwner).

    Layout of this file:
    - [Go]          errors, fmt.Errorf with %w, the logger, panics;
    - [csi]         internal/csi: the capability protocol client;
    - [kubernetes]  internal/kubernetes/client.go over a model of the API
                    server (object store, injected faults, call log);
    - [volume]      internal/volume/kubeclient.go;
    - [remediation] the per-volume loop of main;
    - [ownerchain], [provisioner], [sample]: notions used by the statements
                    and sample clusters and drivers;
    - the properties, grouped by component. *)

From Stdlib Require Import ZArith Ascii String List Lia.
From stdpp Require Import base option gmap strings list fin_maps.

Local Open Scope string_scope.

(* ===================================================================== *)
(** ** Go runtime notions used by the program                              *)
(* ===================================================================== *)

Module Go.

(** k8s.io/apimachinery metav1.StatusReason, the values that matter. *)
Inductive StatusReason :=
| StatusReasonUnknown
| StatusReasonNotFound
| StatusReasonConflict
| StatusReasonInternalError.

(** Go error values.  A nil error is [None : option error].
    - [errorString]: errors.New, and fmt.Errorf when nothing is wrapped;
    - [wrapError]:   fmt.Errorf with a %w operand that is an error;
    - [StatusError]: an API status error of client-go. *)
Inductive error :=
| errorString (s : string)
| wrapError (msg : string) (err : error)
| StatusError (reason : StatusReason) (message : string).

Definition Error (e : error) : string :=
  match e with
  | errorString s => s
  | wrapError msg _ => msg
  | StatusError _ message => message
  end.

Definition Unwrap (e : error) : option error :=
  match e with
  | wrapError _ err => Some err
  | _ => None
  end.

Definition errors_New (s : string) : error := errorString s.

(** [Errorf prefix err] is [fmt.Errorf(prefix + "%w", err)], [prefix] being
    the already formatted text in front of the verb.  With a nil operand
    fmt prints the bad-verb marker and returns a plain error that wraps
    nothing. *)
Definition Errorf (prefix : string) (err : option error) : error :=
  match err with
  | Some e => wrapError (prefix +:+ Error e) e
  | None => errorString (prefix +:+ "%!w(<nil>)")
  end.

(** apierrors.IsConflict: the reason of the first API status found along
    the Unwrap chain (errors.As) is Conflict. *)
Fixpoint IsConflict (e : error) : bool :=
  match e with
  | StatusError StatusReasonConflict _ => true
  | StatusError _ _ => false
  | wrapError _ err => IsConflict err
  | errorString _ => false
  end.

(** errors.Is restricted to structural identity along the Unwrap chain. *)
Fixpoint wraps (target e : error) : Prop :=
  e = target \/
  match e with
  | wrapError _ err => wraps target err
  | _ => False
  end.

(** context.DeadlineExceeded, what a poll returns when its timeout ends. *)
Definition DeadlineExceeded : error := errorString "context deadline exceeded".

(** A call either returns or panics (nil pointer dereference). *)
Inductive outcome (A : Type) :=
| Return (a : A)
| Panic (msg : string).
Arguments Return {A} a.
Arguments Panic {A} msg.

(** log/slog: the records written so far, level and message. *)
Inductive Level := INFO | ERROR.
Definition Logger := list (Level * string).
Definition Info (logger : Logger) (msg : string) : Logger := (logger ++ [(INFO, msg)])%list.
Definition Error_ (logger : Logger) (msg : string) : Logger := (logger ++ [(ERROR, msg)])%list.

End Go.
Import Go.

(* ===================================================================== *)
(** ** internal/csi: the capability protocol client                        *)
(* ===================================================================== *)

Module csi.

(** csipbv1.NodeServiceCapability_RPC_Type, an open int32 enumeration. *)
Definition NodeServiceCapability_RPC_Type := Z.
Definition NodeServiceCapability_RPC_UNKNOWN : NodeServiceCapability_RPC_Type := 0%Z.
Definition NodeServiceCapability_RPC_STAGE_UNSTAGE_VOLUME : NodeServiceCapability_RPC_Type := 1%Z.
Definition NodeServiceCapability_RPC_GET_VOLUME_STATS : NodeServiceCapability_RPC_Type := 2%Z.
Definition NodeServiceCapability_RPC_EXPAND_VOLUME : NodeServiceCapability_RPC_Type := 3%Z.
Definition NodeServiceCapability_RPC_VOLUME_CONDITION : NodeServiceCapability_RPC_Type := 4%Z.

Record NodeServiceCapability_RPC := { Type_ : NodeServiceCapability_RPC_Type }.

(** The one-of of a capability holds an RPC or nothing. *)
Record NodeServiceCapability := { Rpc : option NodeServiceCapability_RPC }.

(** Generated getters are nil-safe. *)
Definition GetRpc (x : option NodeServiceCapability) : option NodeServiceCapability_RPC :=
  match x with
  | Some c => Rpc c
  | None => None
  end.

Definition GetType (x : option NodeServiceCapability_RPC) : NodeServiceCapability_RPC_Type :=
  match x with
  | Some r => Type_ r
  | None => NodeServiceCapability_RPC_UNKNOWN
  end.

Record NodeGetCapabilitiesResponse :=
  { Capabilities : list (option NodeServiceCapability) }.

Definition GetCapabilities (x : option NodeGetCapabilitiesResponse)
  : list (option NodeServiceCapability) :=
  match x with
  | Some r => Capabilities r
  | None => []
  end.

Record BoolValue := { Value : bool }.
Record ProbeResponse := { Ready : option BoolValue }.
Record GetPluginInfoResponse := { Name : string }.

(** The gRPC stubs, as the (response, error) pair each call yields.  The
    requests carry no data, and the driver is queried fresh each time. *)
Record NodeClient :=
  { NodeGetCapabilities : option NodeGetCapabilitiesResponse * option error }.

Record IdentityClient :=
  { GetPluginInfo : option GetPluginInfoResponse * option error;
    Probe : option ProbeResponse * option error }.

(** type client struct: grpcClient is only used by Close. *)
Record client :=
  { grpcClient_Close : option error;
    NodeClient_ : option NodeClient;
    IdentityClient_ : IdentityClient }.

Definition Close (c : client) : option error := grpcClient_Close c.

Definition GetDriverName (c : client) (logger : Logger)
  : Logger * (string * option error) :=
  let logger := Info logger "calling GetPluginInfo rpc to get the driver name" in
  let '(resp, err) := GetPluginInfo (IdentityClient_ c) in
  match err with
  | Some e => (logger, ("", Some e))
  | None =>
      match resp with
      | None => (logger, ("", Some (errors_New "response is nil")))
      | Some resp => (logger, (Name resp, None))
      end
  end.

(** [resp.Ready.Value] dereferences [resp.Ready] without a nil check. *)
Definition IsHealthy (c : client) (logger : Logger)
  : Logger * outcome (bool * option error) :=
  let logger :=
    Info logger "calling NodeGetInfo rpc to check if the node service is healthy" in
  let '(resp, err) := Probe (IdentityClient_ c) in
  match err with
  | Some e => (logger, Return (false, Some e))
  | None =>
      match resp with
      | None => (logger, Return (false, Some (errors_New "response is nil")))
      | Some resp =>
          match Ready resp with
          | None => (logger, Panic "invalid memory address or nil pointer dereference")
          | Some ready => (logger, Return (Value ready, None))
          end
      end
  end.

Definition nodeGetCapabilities (c : client)
  : list (option NodeServiceCapability) * option error :=
  match NodeClient_ c with
  | None => ([], Some (errors_New "nodeclient is nil"))
  | Some nc =>
      let '(resp, err) := NodeGetCapabilities nc in
      match err with
      | Some e => ([], Some e)
      | None => (GetCapabilities resp, None)
      end
  end.

(** The range loop of nodeSupportsCapability. *)
Fixpoint scanCapabilities (capabilities : list (option NodeServiceCapability))
         (capabilityType : NodeServiceCapability_RPC_Type) : bool :=
  match capabilities with
  | [] => false
  | capability :: rest =>
      match capability, GetRpc capability with
      | None, _ | _, None => scanCapabilities rest capabilityType
      | Some _, Some _ =>
          if (GetType (GetRpc capability) =? capabilityType)%Z then true
          else scanCapabilities rest capabilityType
      end
  end.

Definition nodeSupportsCapability (c : client) (logger : Logger)
           (capabilityType : NodeServiceCapability_RPC_Type)
  : Logger * (bool * option error) :=
  let logger :=
    Info logger "calling NodeGetCapabilities rpc to determine if the node service" in
  let '(capabilities, err) := nodeGetCapabilities c in
  match err with
  | Some e => (logger, (false, Some e))
  | None => (logger, (scanCapabilities capabilities capabilityType, None))
  end.

Definition NodeSupportsVolumeCondition (c : client) (logger : Logger) :=
  nodeSupportsCapability c logger NodeServiceCapability_RPC_VOLUME_CONDITION.

Definition NodeSupportsStageUnstage (c : client) (logger : Logger) :=
  nodeSupportsCapability c logger NodeServiceCapability_RPC_STAGE_UNSTAGE_VOLUME.

(** type Client interface: a value of the interface is a record of its
    methods; main only holds drivers through it. *)
Record Client :=
  { Client_NodeSupportsStageUnstage : Logger -> Logger * (bool * option error);
    Client_NodeSupportsVolumeCondition : Logger -> Logger * (bool * option error);
    Client_GetDriverName : Logger -> Logger * (string * option error);
    Client_IsHealthy : Logger -> Logger * outcome (bool * option error);
    Client_Close : option error }.

(** var _ Client = &client{} *)
Definition asClient (c : client) : Client :=
  {| Client_NodeSupportsStageUnstage := NodeSupportsStageUnstage c;
     Client_NodeSupportsVolumeCondition := NodeSupportsVolumeCondition c;
     Client_GetDriverName := GetDriverName c;
     Client_IsHealthy := IsHealthy c;
     Client_Close := Close c |}.

(** An entry is usable when it is non-nil, has a non-nil RPC and that RPC
    carries the given type. *)
Definition carries (t : NodeServiceCapability_RPC_Type)
           (capability : option NodeServiceCapability) : Prop :=
  exists cap rpc, capability = Some cap /\ Rpc cap = Some rpc /\ Type_ rpc = t.

End csi.

(* ===================================================================== *)
(** ** The cluster API, as client-go presents it to the program            *)
(* ===================================================================== *)

Module api.

Record OwnerReference := { Kind : string; Name : string }.

(** Only the fields the program reads or writes are kept. *)
Record Pod := { Pod_OwnerReferences : list OwnerReference }.
Record ReplicaSet := { ReplicaSet_OwnerReferences : list OwnerReference }.

Record Deployment :=
  { Deployment_Name : string;
    Deployment_Spec_Replicas : option Z;     (* *int32 *)
    Deployment_Status_Replicas : Z }.

Record StatefulSet :=
  { StatefulSet_Name : string;
    StatefulSet_Spec_Replicas : option Z;    (* *int32 *)
    StatefulSet_Status_Replicas : Z }.

(** A nil Annotations map is [None]; reading a missing key of a Go map
    gives the empty string. *)
Record PersistentVolumeClaim :=
  { Annotations : option (gmap string string);
    Spec_VolumeName : string }.

Record CSIPersistentVolumeSource := { Driver : string }.
Record PersistentVolume := { Spec_CSI : option CSIPersistentVolumeSource }.

Definition index (m : gmap string string) (key : string) : string :=
  default "" (m !! key).

(** The requests the program sends. *)
Inductive Call :=
| GetPod (namespace name : string)
| DeletePod (namespace name : string)
| GetReplicaSet (namespace name : string)
| GetDeployment (namespace name : string)
| UpdateDeployment (namespace name : string) (replicas : option Z)
| GetStatefulSet (namespace name : string)
| UpdateStatefulSet (namespace name : string) (replicas : option Z)
| GetPersistentVolumeClaim (namespace name : string)
| GetPersistentVolume (name : string).

(** The API server: the stored objects, the outcome imposed on each of the
    coming requests ([Some e]: the request fails with [e] and changes
    nothing; [None] or an exhausted list: it is served from the store),
    and the requests received so far. *)
Record Server :=
  { pods : gmap (string * string) Pod;
    replicasets : gmap (string * string) ReplicaSet;
    deployments : gmap (string * string) Deployment;
    statefulsets : gmap (string * string) StatefulSet;
    pvcs : gmap (string * string) PersistentVolumeClaim;
    pvs : gmap string PersistentVolume;
    faults : list (option error);
    calls : list Call }.

(** A pointer-and-error return of which exactly one is non-nil. *)
Inductive result (A : Type) :=
| Ok (a : A)
| Err (e : error).
Arguments Ok {A} a.
Arguments Err {A} e.

Definition NewNotFound (resource name : string) : error :=
  StatusError StatusReasonNotFound (resource +:+ " " +:+ name +:+ " not found").

Definition NewConflict (resource name : string) : error :=
  StatusError StatusReasonConflict
    ("Operation cannot be fulfilled on " +:+ resource +:+ " " +:+ name
     +:+ ": the object has been modified").

(** Receive a request: log it and take the next imposed outcome. *)
Definition receive (c : Call) (s : Server) : Server * option error :=
  ({| pods := pods s; replicasets := replicasets s; deployments := deployments s;
      statefulsets := statefulsets s; pvcs := pvcs s; pvs := pvs s;
      faults := tail (faults s);
      calls := (calls s ++ [c])%list |},
   match faults s with
   | Some e :: _ => Some e
   | _ => None
   end).

Definition fetch {K A} `{Countable K} (c : Call) (store : Server -> gmap K A)
           (key : K) (notFound : error) (s : Server) : Server * result A :=
  let '(s, fault) := receive c s in
  match fault with
  | Some e => (s, Err e)
  | None =>
      match store s !! key with
      | Some a => (s, Ok a)
      | None => (s, Err notFound)
      end
  end.

Definition Pods_Get (namespace name : string) :=
  fetch (GetPod namespace name) pods (namespace, name) (NewNotFound "pods" name).

Definition ReplicaSets_Get (namespace name : string) :=
  fetch (GetReplicaSet namespace name) replicasets (namespace, name)
        (NewNotFound "replicasets.apps" name).

Definition Deployments_Get (namespace name : string) :=
  fetch (GetDeployment namespace name) deployments (namespace, name)
        (NewNotFound "deployments.apps" name).

Definition StatefulSets_Get (namespace name : string) :=
  fetch (GetStatefulSet namespace name) statefulsets (namespace, name)
        (NewNotFound "statefulsets.apps" name).

Definition PersistentVolumeClaims_Get (namespace name : string) :=
  fetch (GetPersistentVolumeClaim namespace name) pvcs (namespace, name)
        (NewNotFound "persistentvolumeclaims" name).

Definition PersistentVolumes_Get (name : string) :=
  fetch (GetPersistentVolume name) pvs name (NewNotFound "persistentvolumes" name).

Definition set_pods (s : Server) (m : gmap (string * string) Pod) : Server :=
  {| pods := m; replicasets := replicasets s; deployments := deployments s;
     statefulsets := statefulsets s; pvcs := pvcs s; pvs := pvs s;
     faults := faults s; calls := calls s |}.

Definition set_deployments (s : Server) (m : gmap (string * string) Deployment) : Server :=
  {| pods := pods s; replicasets := replicasets s; deployments := m;
     statefulsets := statefulsets s; pvcs := pvcs s; pvs := pvs s;
     faults := faults s; calls := calls s |}.

Definition set_statefulsets (s : Server) (m : gmap (string * string) StatefulSet) : Server :=
  {| pods := pods s; replicasets := replicasets s; deployments := deployments s;
     statefulsets := m; pvcs := pvcs s; pvs := pvs s;
     faults := faults s; calls := calls s |}.

Definition Pods_Delete (namespace name : string) (s : Server) : Server * option error :=
  let '(s, fault) := receive (DeletePod namespace name) s in
  match fault with
  | Some e => (s, Some e)
  | None =>
      match pods s !! (namespace, name) with
      | Some _ => (set_pods s (delete (namespace, name) (pods s)), None)
      | None => (s, Some (NewNotFound "pods" name))
      end
  end.

(** Update writes the desired state (the spec) of the stored object and
    leaves its observed status to the controllers. *)
Definition Deployments_Update (namespace : string) (d : Deployment) (s : Server)
  : Server * result Deployment :=
  let name := Deployment_Name d in
  let '(s, fault) := receive (UpdateDeployment namespace name (Deployment_Spec_Replicas d)) s in
  match fault with
  | Some e => (s, Err e)
  | None =>
      match deployments s !! (namespace, name) with
      | Some old =>
          let new := {| Deployment_Name := name;
                        Deployment_Spec_Replicas := Deployment_Spec_Replicas d;
                        Deployment_Status_Replicas := Deployment_Status_Replicas old |} in
          (set_deployments s (<[(namespace, name) := new]> (deployments s)), Ok new)
      | None => (s, Err (NewNotFound "deployments.apps" name))
      end
  end.

Definition StatefulSets_Update (namespace : string) (d : StatefulSet) (s : Server)
  : Server * result StatefulSet :=
  let name := StatefulSet_Name d in
  let '(s, fault) := receive (UpdateStatefulSet namespace name (StatefulSet_Spec_Replicas d)) s in
  match fault with
  | Some e => (s, Err e)
  | None =>
      match statefulsets s !! (namespace, name) with
      | Some old =>
          let new := {| StatefulSet_Name := name;
                        StatefulSet_Spec_Replicas := StatefulSet_Spec_Replicas d;
                        StatefulSet_Status_Replicas := StatefulSet_Status_Replicas old |} in
          (set_statefulsets s (<[(namespace, name) := new]> (statefulsets s)), Ok new)
      | None => (s, Err (NewNotFound "statefulsets.apps" name))
      end
  end.

(** The error of a (pointer, error) return. *)
Definition err_of {A} (r : result A) : option error :=
  match r with
  | Ok _ => None
  | Err e => Some e
  end.

(** retry.DefaultRetry.Steps *)
Definition DefaultRetry : nat := 5.

(** retry.RetryOnConflict: run [fn] at most [steps] times, again only after
    a conflict; when the steps run out the last conflict is returned. *)
Fixpoint RetryOnConflict_from (lastErr : option error) (steps : nat)
         (fn : Server -> Server * option error) (s : Server)
  : Server * option error :=
  match steps with
  | 0 => (s, lastErr)
  | S steps =>
      let '(s, err) := fn s in
      match err with
      | None => (s, None)
      | Some e =>
          if IsConflict e then RetryOnConflict_from (Some e) steps fn s
          else (s, Some e)
      end
  end.

Definition RetryOnConflict := RetryOnConflict_from None.

Section Poll.
(** What the workload controllers do to the cluster while the program
    sleeps for one poll interval. *)
Variable controllers : Server -> Server.

(** wait.PollUntilContextTimeout with immediate = true: [attempts] is
    the number of polls that fit in the timeout. *)
Fixpoint PollUntilContextTimeout (attempts : nat)
         (condition : Server -> Server * (bool * option error)) (s : Server)
  : Server * option error :=
  match attempts with
  | 0 => (s, Some DeadlineExceeded)
  | S attempts =>
      let '(s, (ok, err)) := condition s in
      match err with
      | Some e => (s, Some e)
      | None =>
          if ok then (s, None)
          else PollUntilContextTimeout attempts condition (controllers s)
      end
  end.
End Poll.

End api.

(* ===================================================================== *)
(** ** internal/kubernetes/client.go                                       *)
(* ===================================================================== *)

Module kubernetes.
Import api.

(** type client struct: the clientset is the [Server] threaded through
    every method; [timeout] is in seconds. *)
Record client := { nodeName : string; timeout : nat }.

(** NewClient fixes the timeout to two minutes. *)
Definition NewClient (nodeName : string) : client :=
  {| nodeName := nodeName; timeout := 120 |}.

Definition GetPVC (pvcName namespace : string) (s : Server)
  : Server * result PersistentVolumeClaim :=
  let '(s, r) := PersistentVolumeClaims_Get namespace pvcName s in
  match r with
  | Err _ =>
      (s, Err (Errorf ("failed to get PVC " +:+ pvcName +:+ " in namespace "
                       +:+ namespace +:+ ": ") (err_of r)))
  | Ok pvc => (s, Ok pvc)
  end.

Definition GetPV (pvName : string) (s : Server) : Server * result PersistentVolume :=
  let '(s, r) := PersistentVolumes_Get pvName s in
  match r with
  | Err _ => (s, Err (Errorf ("failed to get PV " +:+ pvName +:+ ": ") (err_of r)))
  | Ok pv => (s, Ok pv)
  end.

(** findTopOwner recurses without a bound; [fuel] counts the calls, and
    [None] means the recursion has not returned within it. *)
Fixpoint findTopOwner (fuel : nat) (namespace : string)
         (ownerRefs : list OwnerReference) (s : Server)
  : option (Server * (string * string * option error)) :=
  match fuel with
  | 0 => None
  | S fuel =>
      match ownerRefs with
      | [] => Some (s, ("", "", None))
      | ownerRef :: _ =>
          if Kind ownerRef =? "ReplicaSet" then
            let '(s, r) := ReplicaSets_Get namespace (Name ownerRef) s in
            match r with
            | Err e => Some (s, ("", "", Some e))
            | Ok rs => findTopOwner fuel namespace (ReplicaSet_OwnerReferences rs) s
            end
          else if Kind ownerRef =? "StatefulSet" then
            Some (s, (Name ownerRef, "StatefulSet", None))
          else if Kind ownerRef =? "Deployment" then
            Some (s, (Name ownerRef, "Deployment", None))
          else if Kind ownerRef =? "DaemonSet" then
            Some (s, (Name ownerRef, "DaemonSet", None))
          else
            Some (s, (Name ownerRef, Kind ownerRef, None))
      end
  end.

Definition RestartPod (fuel : nat) (namespace podName : string) (s : Server)
  : option (Server * option error) :=
  let '(s, r) := Pods_Get namespace podName s in
  match r with
  | Err _ =>
      Some (s, Some (Errorf ("failed to get pod " +:+ podName +:+ " in namespace "
                             +:+ namespace +:+ ": ") (err_of r)))
  | Ok pod =>
      match findTopOwner fuel namespace (Pod_OwnerReferences pod) s with
      | None => None
      | Some (s, (ownerName, _, err)) =>
          match err with
          | Some _ =>
              Some (s, Some (Errorf ("failed to find top owner for pod " +:+ podName
                                     +:+ " in namespace " +:+ namespace +:+ ": ") err))
          | None =>
              if ownerName =? "" then
                Some (s, Some (errorString ("no owner found for pod " +:+ podName
                                            +:+ " in namespace " +:+ namespace)))
              else
                let '(s, err) := Pods_Delete namespace podName s in
                match err with
                | Some _ =>
                    Some (s, Some (Errorf ("failed to delete pod " +:+ podName
                                           +:+ " in namespace " +:+ namespace +:+ ": ") err))
                | None => Some (s, None)
                end
          end
      end
  end.

Definition int32Ptr (i : Z) : option Z := Some i.

Definition Deployment_with_Replicas (d : Deployment) (r : option Z) : Deployment :=
  {| Deployment_Name := Deployment_Name d;
     Deployment_Spec_Replicas := r;
     Deployment_Status_Replicas := Deployment_Status_Replicas d |}.

Definition StatefulSet_with_Replicas (d : StatefulSet) (r : option Z) : StatefulSet :=
  {| StatefulSet_Name := StatefulSet_Name d;
     StatefulSet_Spec_Replicas := r;
     StatefulSet_Status_Replicas := StatefulSet_Status_Replicas d |}.

Definition checkReplicas (namespace ownerName kind : string) (s : Server)
  : Server * (bool * option error) :=
  if kind =? "Deployment" then
    let '(s, r) := Deployments_Get namespace ownerName s in
    match r with
    | Err e => (s, (false, Some e))
    | Ok deployment => (s, ((Deployment_Status_Replicas deployment =? 0)%Z, None))
    end
  else if kind =? "StatefulSet" then
    let '(s, r) := StatefulSets_Get namespace ownerName s in
    match r with
    | Err e => (s, (false, Some e))
    | Ok statefulset => (s, ((StatefulSet_Status_Replicas statefulset =? 0)%Z, None))
    end
  else (s, (false, Some (errorString ("unsupported kind: " +:+ kind)))).

Section Bounce.
Variable controllers : Server -> Server.

(** A poll at once and then one every 2 seconds until the timeout. *)
Definition pollAttempts (c : client) : nat := timeout c / 2 + 1.

Definition waitForReplicasToBeZero (c : client) (namespace ownerName kind : string)
  : Server -> Server * option error :=
  PollUntilContextTimeout controllers (pollAttempts c)
    (fun s =>
       let '(s, (ready, err)) := checkReplicas namespace ownerName kind s in
       match err with
       | Some e => (s, (false, Some e))
       | None => if ready then (s, (true, None)) else (s, (false, None))
       end).

(** The function literal that scaleDeployment hands to RetryOnConflict.
    The object returned by Update is dropped, and [err] is the variable
    each call assigns. *)
Definition scaleDeployment_func (c : client) (name namespace : string) (count : Z)
           (s : Server) : Server * option error :=
  let '(s, r) := Deployments_Get namespace name s in
  match r with
  | Err e => (s, Some e)
  | Ok deployment =>
      let originalReplicas := Deployment_Spec_Replicas deployment in
      let originalReplicas :=
        if negb (count =? 0)%Z then Some count else originalReplicas in
      let deployment := Deployment_with_Replicas deployment (int32Ptr count) in
      let restore (s : Server) :=
        let deployment := Deployment_with_Replicas deployment originalReplicas in
        let '(s, r) := Deployments_Update namespace deployment s in
        let err := err_of r in
        match err with
        | Some _ =>
            (s, Some (Errorf "failed to revert back the replicas in deployment: " err))
        | None => (s, None)
        end in
      if (count =? 0)%Z then
        let '(s, r) := Deployments_Update namespace deployment s in
        let err := err_of r in
        match err with
        | Some e => (s, Some e)
        | None =>
            let '(s, err) := waitForReplicasToBeZero c namespace name "Deployment" s in
            match err with
            | Some _ =>
                let deployment := Deployment_with_Replicas deployment originalReplicas in
                let '(s, r) := Deployments_Update namespace deployment s in
                let err := err_of r in
                match err with
                | Some _ => (s, Some (Errorf "failed to revert changes: " err))
                | None => (s, Some (Errorf "failed to scale down the deployment: " err))
                end
            | None => restore s
            end
        end
      else restore s
  end.

Definition scaleDeployment (c : client) (name namespace : string) (count : Z)
  : Server -> Server * option error :=
  RetryOnConflict DefaultRetry (scaleDeployment_func c name namespace count).

Definition scaleStateFulSet_func (c : client) (name namespace : string) (count : Z)
           (s : Server) : Server * option error :=
  let '(s, r) := StatefulSets_Get namespace name s in
  match r with
  | Err e => (s, Some e)
  | Ok sts =>
      let originalReplicas := StatefulSet_Spec_Replicas sts in
      let originalReplicas :=
        if negb (count =? 0)%Z then Some count else originalReplicas in
      let sts := StatefulSet_with_Replicas sts (int32Ptr count) in
      let restore (s : Server) :=
        let sts := StatefulSet_with_Replicas sts originalReplicas in
        let '(s, r) := StatefulSets_Update namespace sts s in
        let err := err_of r in
        match err with
        | Some _ =>
            (s, Some (Errorf "failed to revert back the replicas in StatefulSets: " err))
        | None => (s, None)
        end in
      if (count =? 0)%Z then
        let '(s, r) := StatefulSets_Update namespace sts s in
        let err := err_of r in
        match err with
        | Some e => (s, Some e)
        | None =>
            let '(s, err) := waitForReplicasToBeZero c namespace name "StatefulSets" s in
            match err with
            | Some _ =>
                let sts := StatefulSet_with_Replicas sts originalReplicas in
                let '(s, r) := StatefulSets_Update namespace sts s in
                let err := err_of r in
                match err with
                | Some _ => (s, Some (Errorf "failed to revert changes: " err))
                | None => (s, Some (Errorf "failed to scale down the StatefulSets: " err))
                end
            | None => restore s
            end
        end
      else restore s
  end.

Definition scaleStateFulSet (c : client) (name namespace : string) (count : Z)
  : Server -> Server * option error :=
  RetryOnConflict DefaultRetry (scaleStateFulSet_func c name namespace count).

Definition ScaleOwner (fuel : nat) (c : client) (namespace podName : string)
           (replicaCount : Z) (s : Server) : option (Server * option error) :=
  let '(s, r) := Pods_Get namespace podName s in
  match r with
  | Err _ =>
      Some (s, Some (Errorf ("failed to get pod " +:+ podName +:+ " in namespace "
                             +:+ namespace +:+ ": ") (err_of r)))
  | Ok pod =>
      let ownerRefs := Pod_OwnerReferences pod in
      match findTopOwner fuel namespace ownerRefs s with
      | None => None
      | Some (s, (ownerName, kind, err)) =>
          match err with
          | Some _ => Some (s, Some (Errorf "failed to find top owner: " err))
          | None =>
              if kind =? "Deployment" then
                Some (scaleDeployment c ownerName namespace replicaCount s)
              else if kind =? "StatefulSet" then
                Some (scaleStateFulSet c ownerName namespace replicaCount s)
              else
                Some (s, Some (errorString ("unsupported owner kind: " +:+ kind)))
          end
      end
  end.
End Bounce.

End kubernetes.

(* ===================================================================== *)
(** ** internal/volume/kubeclient.go                                       *)
(* ===================================================================== *)

Module volume.
Import api.

Definition getPVC (pvcName namespace : string) (s : Server)
  : Server * result PersistentVolumeClaim :=
  let '(s, r) := kubernetes.GetPVC pvcName namespace s in
  match r with
  | Err _ =>
      (s, Err (Errorf ("failed to get PVC " +:+ pvcName +:+ " in namespace "
                       +:+ namespace +:+ ": ") (err_of r)))
  | Ok pvc => (s, Ok pvc)
  end.

(** func (k *kubeclient) GetDriverName(ctx, _, _ string, pvcName, namespace string):
    the two blank parameters are the pod UID and the pod name of the
    Volume interface.  [fromPV] is the code after the annotation block. *)
Definition GetDriverName (podUUID podName : string) (pvcName namespace : string)
           (s : Server) : Server * (string * option error) :=
  let '(s, r) := getPVC pvcName namespace s in
  match r with
  | Err e => (s, ("", Some e))
  | Ok pvc =>
      let fromPV (s : Server) :=
        let pvName := Spec_VolumeName pvc in
        let '(s, r) := kubernetes.GetPV pvName s in
        match r with
        | Err _ =>
            (s, ("", Some (Errorf ("failed to get PV " +:+ pvName +:+ ": ") (err_of r))))
        | Ok pv =>
            match Spec_CSI pv with
            | None =>
                (s, ("", Some (errorString ("PV " +:+ pvName +:+ " is not a CSI volume"))))
            | Some csi => (s, (Driver csi, None))
            end
        end in
      match Annotations pvc with
      | Some annotations =>
          let driverName :=
            index annotations "volume.beta.kubernetes.io/storage-provisioner" in
          if negb (driverName =? "") then (s, (driverName, None))
          else
            let driverName :=
              index annotations "volume.kubernetes.io/storage-provisioner" in
            if negb (driverName =? "") then (s, (driverName, None))
            else fromPV s
      | None => fromPV s
      end
  end.

End volume.

(* ===================================================================== *)
(** ** main: the remediation loop                                          *)
(* ===================================================================== *)

Module remediation.
Import api.

(** k8s.io/kubelet stats v1alpha1.Summary, the part the loop reads. *)
Record PVCReference := { PVC_Name : string; PVC_Namespace : string }.
Record VolumeStats := { PVCRef : option PVCReference }.
Record PodReference := { Pod_Name : string; Pod_Namespace : string; Pod_UID : string }.
Record PodStats := { PodRef : PodReference; VolumeStats_ : list VolumeStats }.
Record Summary := { Pods : list PodStats }.

Section Loop.
Variable controllers : Server -> Server.
Variable fuel : nat.
Variable kubeClient : kubernetes.client.
Variable drivers : gmap string csi.Client.

(** The body of the inner loop, for the volume [j] of the pod [i]. *)
Definition volumeBody (podName podUUID : string) (v : VolumeStats)
           (st : Server * Logger) : option (Server * Logger) :=
  let '(s, logger) := st in
  match PVCRef v with
  | None => Some (s, logger)
  | Some pvcRef =>
      let '(s, (driver, err)) :=
        volume.GetDriverName podUUID podName (PVC_Name pvcRef) (PVC_Namespace pvcRef) s in
      match err with
      | Some _ => Some (s, Error_ logger "failed to get driver name")
      | None =>
          match drivers !! driver with
          | None => Some (s, Info logger "driver not found")
          | Some client =>
              let '(logger, (ok, err)) :=
                csi.Client_NodeSupportsVolumeCondition client logger in
              match err with
              | Some _ =>
                  Some (s, Error_ logger
                             "failed to check if the node supports volume condition")
              | None =>
                  if negb ok then
                    Some (s, Info logger "node does not support volume condition")
                  else
                    let '(logger, (ok, err)) :=
                      csi.Client_NodeSupportsStageUnstage client logger in
                    match err with
                    | Some _ =>
                        Some (s, Error_ logger
                                   "failed to check if the node supports stage unstage")
                    | None =>
                        let logger :=
                          Info logger "node supports volume condition and stage unstage" in
                        if negb ok then
                          let logger := Info logger "node does not support stage unstage" in
                          match kubernetes.RestartPod fuel (PVC_Namespace pvcRef) podName s with
                          | None => None
                          | Some (s, err) =>
                              match err with
                              | Some _ => Some (s, Error_ logger "failed to restart pod")
                              | None => Some (s, logger)
                              end
                          end
                        else
                          let logger := Info logger "node supports stage unstage" in
                          match kubernetes.ScaleOwner controllers fuel kubeClient
                                  (PVC_Namespace pvcRef) podName 0 s with
                          | None => None
                          | Some (s, err) =>
                              match err with
                              | Some _ => Some (s, Error_ logger "failed to scale owner")
                              | None => Some (s, logger)
                              end
                          end
                    end
              end
          end
      end
  end.

(** for j := range metrics.Pods[i].VolumeStats *)
Fixpoint volumeLoop (podName podUUID : string) (vs : list VolumeStats)
         (st : Server * Logger) : option (Server * Logger) :=
  match vs with
  | [] => Some st
  | v :: vs =>
      match volumeBody podName podUUID v st with
      | None => None
      | Some st => volumeLoop podName podUUID vs st
      end
  end.

(** for i := range metrics.Pods *)
Fixpoint podLoop (ps : list PodStats) (st : Server * Logger)
  : option (Server * Logger) :=
  match ps with
  | [] => Some st
  | p :: ps =>
      let podName := Pod_Name (PodRef p) in
      let podUUID := Pod_UID (PodRef p) in
      match volumeLoop podName podUUID (VolumeStats_ p) st with
      | None => None
      | Some st => podLoop ps st
      end
  end.

Definition remediate (metrics : Summary) := podLoop (Pods metrics).
End Loop.

End remediation.

(* ===================================================================== *)
(** ** Notions used to state the properties, and sample clusters           *)
(* ===================================================================== *)

Module ownerchain.
Import api.

(** The ReplicaSets that the first [fuel] calls of findTopOwner look up, in
    order. *)
Fixpoint ownerChain (fuel : nat) (namespace : string)
         (ownerRefs : list OwnerReference) (s : Server) : list string :=
  match fuel with
  | 0 => []
  | S fuel =>
      match ownerRefs with
      | [] => []
      | ownerRef :: _ =>
          if Kind ownerRef =? "ReplicaSet" then
            Name ownerRef ::
              (let '(s, r) := ReplicaSets_Get namespace (Name ownerRef) s in
               match r with
               | Ok rs => ownerChain fuel namespace (ReplicaSet_OwnerReferences rs) s
               | Err _ => []
               end)
          else []
      end
  end.

(** The chain never comes back to a ReplicaSet it has already visited. *)
Definition acyclic (namespace : string) (ownerRefs : list OwnerReference)
           (s : Server) : Prop :=
  forall fuel, NoDup (ownerChain fuel namespace ownerRefs s).

(** The kinds of an owner-chain result. *)
Inductive TopOwnerKind :=
| NoOwner
| TopDeployment
| TopStatefulSet
| TopDaemonSet
| OtherKind (literal : string).

Definition classify (kind : string) : option TopOwnerKind :=
  if kind =? "" then Some NoOwner
  else if kind =? "Deployment" then Some TopDeployment
  else if kind =? "StatefulSet" then Some TopStatefulSet
  else if kind =? "DaemonSet" then Some TopDaemonSet
  else if kind =? "ReplicaSet" then None
  else Some (OtherKind kind).

End ownerchain.

Module provisioner.
Import api.

Definition betaProvisionerKey : string := "volume.beta.kubernetes.io/storage-provisioner".
Definition provisionerKey : string := "volume.kubernetes.io/storage-provisioner".

(** The value of an annotation of a claim: empty when the key is missing or
    the claim has no annotation map. *)
Definition annotation (pvc : PersistentVolumeClaim) (key : string) : string :=
  match Annotations pvc with
  | Some annotations => index annotations key
  | None => ""
  end.

End provisioner.

Module sample.
Import api.

(** A capability list with a nil entry, an entry without RPC, a
    GET_VOLUME_STATS entry and a STAGE_UNSTAGE_VOLUME entry. *)
Definition stagingCapabilities : list (option csi.NodeServiceCapability) :=
  [ None;
    Some {| csi.Rpc := None |};
    Some {| csi.Rpc := Some {| csi.Type_ := csi.NodeServiceCapability_RPC_GET_VOLUME_STATS |} |};
    Some {| csi.Rpc :=
              Some {| csi.Type_ := csi.NodeServiceCapability_RPC_STAGE_UNSTAGE_VOLUME |} |} ].

(** A driver that answers with that list. *)
Definition stagingDriver : csi.client :=
  {| csi.grpcClient_Close := None;
     csi.NodeClient_ :=
       Some {| csi.NodeGetCapabilities :=
                 (Some {| csi.Capabilities := stagingCapabilities |}, None) |};
     csi.IdentityClient_ :=
       {| csi.GetPluginInfo := (Some {| csi.Name := "csi.example.com" |}, None);
          csi.Probe := (Some {| csi.Ready := Some {| csi.Value := true |} |}, None) |} |}.

Definition emptyServer : Server :=
  {| pods := ∅; replicasets := ∅; deployments := ∅; statefulsets := ∅;
     pvcs := ∅; pvs := ∅; faults := []; calls := [] |}.

Definition ownedBy (kind name : string) : list OwnerReference :=
  [ {| Kind := kind; Name := name |} ].

(** A pod of the Deployment app1, through the ReplicaSet app1-5d4f. *)
Definition app1Cluster : Server :=
  {| pods := {[ ("default", "app1-5d4f-x2x") :=
                  {| Pod_OwnerReferences := ownedBy "ReplicaSet" "app1-5d4f" |} ]};
     replicasets := {[ ("default", "app1-5d4f") :=
                         {| ReplicaSet_OwnerReferences := ownedBy "Deployment" "app1" |} ]};
     deployments := {[ ("default", "app1") :=
                         {| Deployment_Name := "app1";
                            Deployment_Spec_Replicas := Some 3%Z;
                            Deployment_Status_Replicas := 3%Z |} ]};
     statefulsets := ∅; pvcs := ∅; pvs := ∅; faults := []; calls := [] |}.

(** A ReplicaSet that names itself as its owner. *)
Definition selfOwnedCluster : Server :=
  {| pods := ∅;
     replicasets := {[ ("default", "loop") :=
                         {| ReplicaSet_OwnerReferences := ownedBy "ReplicaSet" "loop" |} ]};
     deployments := ∅; statefulsets := ∅; pvcs := ∅; pvs := ∅;
     faults := []; calls := [] |}.

(** The same pod, but its ReplicaSet is gone from the cluster. *)
Definition danglingCluster : Server :=
  {| pods := pods app1Cluster; replicasets := ∅; deployments := deployments app1Cluster;
     statefulsets := ∅; pvcs := ∅; pvs := ∅; faults := []; calls := [] |}.

Definition with_faults (s : Server) (fs : list (option error)) : Server :=
  {| pods := pods s; replicasets := replicasets s; deployments := deployments s;
     statefulsets := statefulsets s; pvcs := pvcs s; pvs := pvs s;
     faults := fs; calls := calls s |}.

(** A claim that carries both provisioner annotations, with different
    values, bound to a CSI volume of a third driver. *)
Definition claimCluster : Server :=
  {| pods := pods app1Cluster; replicasets := replicasets app1Cluster;
     deployments := deployments app1Cluster; statefulsets := ∅;
     pvcs := {[ ("default", "data") :=
                  {| Annotations :=
                       Some {[ "volume.beta.kubernetes.io/storage-provisioner" := "legacy.example.com";
                               "volume.kubernetes.io/storage-provisioner" := "csi.example.com" ]};
                     Spec_VolumeName := "pv-data" |} ]};
     pvs := {[ "pv-data" := {| Spec_CSI := Some {| Driver := "pv.example.com" |} |} ]};
     faults := []; calls := [] |}.

(** The cluster of the end-to-end scenarios: the pod of app1 mounts one
    volume whose claim names the provisioner csi.example.com. *)
Definition scenarioCluster : Server :=
  {| pods := pods app1Cluster; replicasets := replicasets app1Cluster;
     deployments := deployments app1Cluster; statefulsets := ∅;
     pvcs := {[ ("default", "data") :=
                  {| Annotations :=
                       Some {[ "volume.kubernetes.io/storage-provisioner" := "csi.example.com" ]};
                     Spec_VolumeName := "pv-data" |} ]};
     pvs := {[ "pv-data" := {| Spec_CSI := Some {| Driver := "csi.example.com" |} |} ]};
     faults := []; calls := [] |}.

Definition scenarioVolume : remediation.VolumeStats :=
  {| remediation.PVCRef :=
       Some {| remediation.PVC_Name := "data"; remediation.PVC_Namespace := "default" |} |}.

(** A driver named csi.example.com that reports the given capability types. *)
Definition driverWith (types : list csi.NodeServiceCapability_RPC_Type) : csi.client :=
  {| csi.grpcClient_Close := None;
     csi.NodeClient_ :=
       Some {| csi.NodeGetCapabilities :=
                 (Some {| csi.Capabilities :=
                            (fun t => Some {| csi.Rpc := Some {| csi.Type_ := t |} |}) <$> types |},
                  None) |};
     csi.IdentityClient_ :=
       {| csi.GetPluginInfo := (Some {| csi.Name := "csi.example.com" |}, None);
          csi.Probe := (Some {| csi.Ready := Some {| csi.Value := true |} |}, None) |} |}.

Definition registry (c : csi.client) : gmap string csi.Client :=
  {[ "csi.example.com" := csi.asClient c ]}.

(** Controllers that bring the observed replicas to the desired ones within
    one poll interval (an unset desired count means one replica). *)
Definition promptControllers (s : Server) : Server :=
  set_statefulsets
    (set_deployments s
       ((fun d => {| Deployment_Name := Deployment_Name d;
                     Deployment_Spec_Replicas := Deployment_Spec_Replicas d;
                     Deployment_Status_Replicas := default 1%Z (Deployment_Spec_Replicas d) |})
          <$> deployments s))
    ((fun d => {| StatefulSet_Name := StatefulSet_Name d;
                  StatefulSet_Spec_Replicas := StatefulSet_Spec_Replicas d;
                  StatefulSet_Status_Replicas := default 1%Z (StatefulSet_Spec_Replicas d) |})
       <$> statefulsets s).

(** A StatefulSet web with three replicas. *)
Definition webCluster : Server :=
  {| pods := ∅; replicasets := ∅; deployments := ∅;
     statefulsets := {[ ("default", "web") :=
                          {| StatefulSet_Name := "web";
                             StatefulSet_Spec_Replicas := Some 3%Z;
                             StatefulSet_Status_Replicas := 3%Z |} ]};
     pvcs := ∅; pvs := ∅; faults := []; calls := [] |}.

(** The desired replica count stored for a workload. *)
Definition desiredDeployment (s : Server) (namespace name : string) : option (option Z) :=
  Deployment_Spec_Replicas <$> deployments s !! (namespace, name).

Definition desiredStatefulSet (s : Server) (namespace name : string) : option (option Z) :=
  StatefulSet_Spec_Replicas <$> statefulsets s !! (namespace, name).

(** Controllers that never act. *)
Definition stuckControllers (s : Server) : Server := s.

Definition internalError : error :=
  StatusError StatusReasonInternalError "Internal error occurred: etcdserver: request timed out".

End sample.

(* ===================================================================== *)
(** ** main: driver discovery and the health pass                          *)
(* ===================================================================== *)

Module startup.
Import api.

(** strings.Split(s, ","): the pieces of [s] between the commas; a string
    without comma, the empty one included, gives one piece. *)
Fixpoint Split (s : string) : list string :=
  match s with
  | EmptyString => [""]
  | String c rest =>
      if Ascii.eqb c ","%char then "" :: Split rest
      else
        match Split rest with
        | piece :: pieces => String c piece :: pieces
        | [] => [String c ""]
        end
  end.

(** How a phase of main ends: it goes on, the process exits (os.Exit), or
    it panics. *)
Inductive process (A : Type) :=
| Running (a : A)
| Exited (code : Z)
| Panicked (msg : string).
Arguments Running {A} a.
Arguments Exited {A} code.
Arguments Panicked {A} msg.

Definition logAndExit {A} (logger : Logger) (msg : string) : Logger * process A :=
  (Error_ logger msg, Exited 1%Z).

(** endpoints := strings.Split(conf.Endpoint, ","), with the guard that
    follows it. *)
Definition endpointsOf (Endpoint : string) (logger : Logger)
  : Logger * process (list string) :=
  let endpoints := Split Endpoint in
  if Nat.eqb (length endpoints) 0 then logAndExit logger "no CSI endpoints provided"
  else (logger, Running endpoints).

Section Discovery.
(** grpc.NewClient on the address, with the node and identity stubs built
    on the connection. *)
Variable connect : string -> result csi.client.

(** csi.NewClient, with newGrpcConn. *)
Definition NewClient (addr : string) (logger : Logger) : Logger * result csi.client :=
  let logger := Info logger "creating new gRPC connection" in
  match connect addr with
  | Err e => (logger, Err e)
  | Ok c => (logger, Ok c)
  end.

(** for _, endpoint := range endpoints.  The map holds the clients; the
    remediation loop sees them through the interface (csi.asClient).  The
    deferred Close calls run when main returns and are not part of the
    loop. *)
Fixpoint discover (endpoints : list string) (drivers : gmap string csi.client)
         (logger : Logger) : Logger * process (gmap string csi.client) :=
  match endpoints with
  | [] => (logger, Running drivers)
  | endpoint :: endpoints =>
      let '(logger, r) := NewClient endpoint logger in
      match r with
      | Err _ => logAndExit logger "failed to create CSI client"
      | Ok client =>
          let '(logger, (drivername, err)) := csi.GetDriverName client logger in
          match err with
          | Some _ => logAndExit logger "failed to get driver name"
          | None => discover endpoints (<[drivername := client]> drivers) logger
          end
      end
  end.
End Discovery.

(** for name, client := range drivers, in the order [order] in which the
    runtime happens to visit the map. *)
Fixpoint healthCheck (order : list (string * csi.client)) (logger : Logger)
  : Logger * process unit :=
  match order with
  | [] => (logger, Running tt)
  | (name, client) :: order =>
      let '(logger, out) := csi.IsHealthy client logger in
      match out with
      | Panic msg => (logger, Panicked msg)
      | Return (healthy, err) =>
          match err with
          | Some _ =>
              healthCheck order
                (Error_ logger "failed to check if the node service is healthy")
          | None =>
              if negb healthy then
                healthCheck order (Error_ logger "node service is not healthy")
              else healthCheck order logger
          end
      end
  end.

(** The name a driver reports, when its identity query succeeds. *)
Definition reports (client : csi.client) (name : string) : Prop :=
  exists resp,
    csi.GetPluginInfo (csi.IdentityClient_ client) = (Some resp, None) /\
    csi.Name resp = name.

(** A probe answered without error by a response whose ready field is unset. *)
Definition probeWithoutReady (client : csi.client) : Prop :=
  exists resp,
    csi.Probe (csi.IdentityClient_ client) = (Some resp, None) /\ csi.Ready resp = None.

End startup.

Module cases.
Import api.

(** A Deployment that is present, observed with replicas, on a server that
    injects no fault. *)
Definition busy (namespace name : string) (s : Server) : Prop :=
  faults s = [] /\
  exists d, deployments s !! (namespace, name) = Some d /\
            Deployment_Status_Replicas d <> 0%Z.

(** The requests a Deployment bounce is meant to send: reads of that
    Deployment and updates of a Deployment in its namespace. *)
Definition deploymentRequest (namespace name : string) (c : Call) : Prop :=
  c = GetDeployment namespace name \/
  exists updated replicas, c = UpdateDeployment namespace updated replicas.

(** From [s] to [s'] only requests that satisfy [P] were sent. *)
Definition sentOnly (P : Call -> Prop) (s s' : Server) : Prop :=
  exists requests, calls s' = (calls s ++ requests)%list /\ Forall P requests.

(** A pod of the DaemonSet node-agent. *)
Definition agentCluster : Server :=
  {| pods := {[ ("kube-system", "node-agent-7xk") :=
                  {| Pod_OwnerReferences := sample.ownedBy "DaemonSet" "node-agent" |} ]};
     replicasets := ∅; deployments := ∅; statefulsets := ∅; pvcs := ∅; pvs := ∅;
     faults := []; calls := [] |}.

(** app1 already asked to have no replica, its pods still running. *)
Definition drainingCluster : Server :=
  {| pods := pods sample.app1Cluster; replicasets := replicasets sample.app1Cluster;
     deployments := {[ ("default", "app1") :=
                         {| Deployment_Name := "app1";
                            Deployment_Spec_Replicas := Some 0%Z;
                            Deployment_Status_Replicas := 3%Z |} ]};
     statefulsets := ∅; pvcs := ∅; pvs := ∅; faults := []; calls := [] |}.

(** Node metrics with one pod whose only volume has no claim. *)
Definition claimlessMetrics : remediation.Summary :=
  {| remediation.Pods :=
       [ {| remediation.PodRef :=
              {| remediation.Pod_Name := "app1-5d4f-x2x";
                 remediation.Pod_Namespace := "default";
                 remediation.Pod_UID := "uid-1" |};
            remediation.VolumeStats_ := [ {| remediation.PVCRef := None |} ] |} ] |}.

(** Node metrics with the pod and the claimed volume of the scenarios. *)
Definition scenarioMetrics : remediation.Summary :=
  {| remediation.Pods :=
       [ {| remediation.PodRef :=
              {| remediation.Pod_Name := "app1-5d4f-x2x";
                 remediation.Pod_Namespace := "default";
                 remediation.Pod_UID := "uid-1" |};
            remediation.VolumeStats_ := [ sample.scenarioVolume ] |} ] |}.

(** A driver that answers the probe with an empty response. *)
Definition silentDriver : csi.client :=
  {| csi.grpcClient_Close := None;
     csi.NodeClient_ := Some {| csi.NodeGetCapabilities := (None, None) |};
     csi.IdentityClient_ :=
       {| csi.GetPluginInfo := (Some {| csi.Name := "silent.example.com" |}, None);
          csi.Probe := (Some {| csi.Ready := None |}, None) |} |}.


End cases.

(* ===================================================================== *)
(** * Properties                                                           *)
(* ===================================================================== *)

(** ** Capability protocol client *)

Lemma scanCapabilities_true_iff caps t :
  csi.scanCapabilities caps t = true <-> exists capability, capability ∈ caps /\ csi.carries t capability.
Proof.
  induction caps as [|capability rest IH]; simpl.
  - split; [discriminate|]. intros (x & Hx & _). by apply elem_of_nil in Hx.
  - destruct capability as [[[[ty]|]]|]; simpl.
    + destruct (Z.eqb_spec ty t) as [->|Hne].
      * split; [intros _|done].
        exists (Some {| csi.Rpc := Some {| csi.Type_ := t |} |}).
        split; [left|]. by eexists _, _.
      * rewrite IH. split.
        -- intros (x & Hx & Hc). exists x. split; [by right|done].
        -- intros (x & Hx & Hc). apply elem_of_cons in Hx as [->|Hx]; [|by exists x].
           destruct Hc as (cap & rpc & [= <-] & [= <-] & Hty). simpl in Hty. done.
    + rewrite IH. split.
      * intros (x & Hx & Hc). exists x. split; [by right|done].
      * intros (x & Hx & Hc). apply elem_of_cons in Hx as [->|Hx]; [|by exists x].
        destruct Hc as (cap & rpc & [= <-] & Hrpc & _). discriminate.
    + rewrite IH. split.
      * intros (x & Hx & Hc). exists x. split; [by right|done].
      * intros (x & Hx & Hc). apply elem_of_cons in Hx as [->|Hx]; [|by exists x].
        destruct Hc as (cap & rpc & Hcap & _). discriminate.
Qed.

Lemma nodeSupportsCapability_result c logger t caps :
  csi.nodeGetCapabilities c = (caps, None) ->
  snd (csi.nodeSupportsCapability c logger t) = (csi.scanCapabilities caps t, None).
Proof. intros H. unfold csi.nodeSupportsCapability. by rewrite H. Qed.

(** C5. When the capability query of the driver returns the list [caps],
    NodeSupportsStageUnstage (resp. NodeSupportsVolumeCondition) returns
    without error, and returns true exactly when some entry of [caps] is
    non-nil, has a non-nil RPC and carries STAGE_UNSTAGE_VOLUME (resp.
    VOLUME_CONDITION).  A list made only of nil entries and of entries
    without an RPC gives false for both. *)
Theorem capability_query_iff (c : csi.client) (logger : Logger)
        (caps : list (option csi.NodeServiceCapability)) :
  csi.nodeGetCapabilities c = (caps, None) ->
  (exists b, snd (csi.NodeSupportsStageUnstage c logger) = (b, None) /\
             (b = true <->
              exists capability, capability ∈ caps /\
                csi.carries csi.NodeServiceCapability_RPC_STAGE_UNSTAGE_VOLUME capability)) /\
  (exists b, snd (csi.NodeSupportsVolumeCondition c logger) = (b, None) /\
             (b = true <->
              exists capability, capability ∈ caps /\
                csi.carries csi.NodeServiceCapability_RPC_VOLUME_CONDITION capability)) /\
  ((forall capability, capability ∈ caps -> csi.GetRpc capability = None) ->
   snd (csi.NodeSupportsStageUnstage c logger) = (false, None) /\
   snd (csi.NodeSupportsVolumeCondition c logger) = (false, None)).
Proof.
  intros Hcaps.
  unfold csi.NodeSupportsStageUnstage, csi.NodeSupportsVolumeCondition.
  rewrite !(nodeSupportsCapability_result _ _ _ _ Hcaps).
  split; [|split].
  - eexists. split; [reflexivity|]. apply scanCapabilities_true_iff.
  - eexists. split; [reflexivity|]. apply scanCapabilities_true_iff.
  - intros Hbad.
    assert (Hnone : forall t, csi.scanCapabilities caps t = false).
    { intros t. destruct (csi.scanCapabilities caps t) eqn:E; [|done].
      apply scanCapabilities_true_iff in E as (x & Hx & cap & rpc & -> & Hrpc & _).
      specialize (Hbad _ Hx). simpl in Hbad. congruence. }
    by rewrite !Hnone.
Qed.

Lemma capability_query_iff_witness :
  csi.nodeGetCapabilities sample.stagingDriver = (sample.stagingCapabilities, None) /\
  ((exists b, snd (csi.NodeSupportsStageUnstage sample.stagingDriver []) = (b, None) /\
              (b = true <->
               exists capability, capability ∈ sample.stagingCapabilities /\
                 csi.carries csi.NodeServiceCapability_RPC_STAGE_UNSTAGE_VOLUME capability)) /\
   (exists b, snd (csi.NodeSupportsVolumeCondition sample.stagingDriver []) = (b, None) /\
              (b = true <->
               exists capability, capability ∈ sample.stagingCapabilities /\
                 csi.carries csi.NodeServiceCapability_RPC_VOLUME_CONDITION capability)) /\
   ((forall capability,
        capability ∈ sample.stagingCapabilities -> csi.GetRpc capability = None) ->
    snd (csi.NodeSupportsStageUnstage sample.stagingDriver []) = (false, None) /\
    snd (csi.NodeSupportsVolumeCondition sample.stagingDriver []) = (false, None))).
Proof.
  split; [reflexivity|].
  exact (capability_query_iff sample.stagingDriver [] sample.stagingCapabilities eq_refl).
Defined.

Example stagingDriver_answers :
  snd (csi.NodeSupportsStageUnstage sample.stagingDriver []) = (true, None) /\
  snd (csi.NodeSupportsVolumeCondition sample.stagingDriver []) = (false, None).
Proof. split; reflexivity. Qed.

Lemma IsHealthy_ready c logger resp ready :
  csi.Probe (csi.IdentityClient_ c) = (Some resp, None) ->
  csi.Ready resp = Some ready ->
  snd (csi.IsHealthy c logger) = Return (csi.Value ready, None).
Proof. intros H1 H2. unfold csi.IsHealthy. by rewrite H1, H2. Qed.

Lemma IsHealthy_error c logger resp e :
  csi.Probe (csi.IdentityClient_ c) = (resp, Some e) ->
  snd (csi.IsHealthy c logger) = Return (false, Some e).
Proof. intros H1. unfold csi.IsHealthy. by rewrite H1. Qed.

Lemma IsHealthy_nil_response c logger :
  csi.Probe (csi.IdentityClient_ c) = (None, None) ->
  snd (csi.IsHealthy c logger) = Return (false, Some (errorString "response is nil")).
Proof. intros H1. unfold csi.IsHealthy. by rewrite H1. Qed.

(** C9, at the failing input.  A probe response whose optional ready field
    is unset, received without error, makes IsHealthy panic: it returns
    neither a boolean nor an error. *)
Theorem IsHealthy_panics_on_unset_ready :
  forall close nodeClient pluginInfo logger,
    snd (csi.IsHealthy
           {| csi.grpcClient_Close := close;
              csi.NodeClient_ := nodeClient;
              csi.IdentityClient_ :=
                {| csi.GetPluginInfo := pluginInfo;
                   csi.Probe := (Some {| csi.Ready := None |}, None) |} |}
           logger)
    = Panic "invalid memory address or nil pointer dereference".
Proof. reflexivity. Qed.

(** ** The model of the API server *)

Import api.

(** The stored objects of two servers agree. *)
Definition same_objects (s s' : Server) : Prop :=
  pods s' = pods s /\ replicasets s' = replicasets s /\
  deployments s' = deployments s /\ statefulsets s' = statefulsets s /\
  pvcs s' = pvcs s /\ pvs s' = pvs s.

Lemma same_objects_refl s : same_objects s s.
Proof. by repeat split. Qed.

Lemma same_objects_trans s1 s2 s3 :
  same_objects s1 s2 -> same_objects s2 s3 -> same_objects s1 s3.
Proof.
  intros (?&?&?&?&?&?) (?&?&?&?&?&?). repeat split; congruence.
Qed.

Lemma receive_spec c s :
  same_objects s (fst (receive c s)) /\
  calls (fst (receive c s)) = (calls s ++ [c])%list /\
  faults (fst (receive c s)) = tail (faults s).
Proof. by repeat split. Qed.

Lemma fetch_spec {K A} `{Countable K} c (store : Server -> gmap K A) key nf s s' r :
  (forall s1 s2, same_objects s1 s2 -> store s2 = store s1) ->
  fetch c store key nf s = (s', r) ->
  same_objects s s' /\ calls s' = (calls s ++ [c])%list /\
  faults s' = tail (faults s) /\
  (forall a, r = Ok a -> store s !! key = Some a).
Proof.
  intros Hstore. unfold fetch.
  destruct (receive c s) as [s1 fault] eqn:E.
  pose proof (receive_spec c s) as (Hobj & Hcalls & Hfaults). rewrite E in *. simpl in *.
  destruct fault as [e|].
  - intros [= <- <-]. repeat split; try apply Hobj; try done.
  - destruct (store s1 !! key) as [a|] eqn:Ha; intros [= <- <-];
      (split; [done|split; [done|split; [done|]]]); [|done].
    intros a' [= <-]. by rewrite <- (Hstore _ _ Hobj).
Qed.

Lemma ReplicaSets_Get_spec namespace name s s' r :
  ReplicaSets_Get namespace name s = (s', r) ->
  same_objects s s' /\ calls s' = (calls s ++ [GetReplicaSet namespace name])%list /\
  faults s' = tail (faults s) /\
  (forall rs, r = Ok rs -> replicasets s !! (namespace, name) = Some rs).
Proof. apply fetch_spec. by intros ?? (?&?&?). Qed.

Lemma Pods_Get_spec namespace name s s' r :
  Pods_Get namespace name s = (s', r) ->
  same_objects s s' /\ calls s' = (calls s ++ [GetPod namespace name])%list /\
  faults s' = tail (faults s) /\
  (forall pod, r = Ok pod -> pods s !! (namespace, name) = Some pod).
Proof. apply fetch_spec. by intros ?? (?&?&?). Qed.

(** ** Owner-chain resolver *)

Import ownerchain.

(** C6. The policy of findTopOwner, for a call that has fuel to run:
    no reference gives the pair of empty strings; otherwise only the first
    reference counts; a first ReplicaSet is looked up, a failed lookup is
    returned as the error, a successful one continues with the owner
    references of that ReplicaSet; a first Deployment, StatefulSet or
    DaemonSet, and any other kind, is returned with its name and its own
    kind. *)
Theorem findTopOwner_policy :
  forall (fuel : nat) (namespace : string) (s : Server),
    kubernetes.findTopOwner (S fuel) namespace [] s = Some (s, ("", "", None)) /\
    (forall ownerRef rest rest',
        kubernetes.findTopOwner fuel namespace (ownerRef :: rest) s
        = kubernetes.findTopOwner fuel namespace (ownerRef :: rest') s) /\
    (forall name rest,
        kubernetes.findTopOwner (S fuel) namespace
          ({| Kind := "ReplicaSet"; Name := name |} :: rest) s
        = let '(s', r) := ReplicaSets_Get namespace name s in
          match r with
          | Err e => Some (s', ("", "", Some e))
          | Ok rs =>
              kubernetes.findTopOwner fuel namespace (ReplicaSet_OwnerReferences rs) s'
          end) /\
    (forall name rest,
        kubernetes.findTopOwner (S fuel) namespace
          ({| Kind := "Deployment"; Name := name |} :: rest) s
        = Some (s, (name, "Deployment", None)) /\
        kubernetes.findTopOwner (S fuel) namespace
          ({| Kind := "StatefulSet"; Name := name |} :: rest) s
        = Some (s, (name, "StatefulSet", None)) /\
        kubernetes.findTopOwner (S fuel) namespace
          ({| Kind := "DaemonSet"; Name := name |} :: rest) s
        = Some (s, (name, "DaemonSet", None))) /\
    (forall ownerRef rest,
        kubernetes.findTopOwner (S fuel) namespace (ownerRef :: rest) s
        = if Kind ownerRef =? "ReplicaSet"
          then kubernetes.findTopOwner (S fuel) namespace
                 [{| Kind := "ReplicaSet"; Name := Name ownerRef |}] s
          else Some (s, (Name ownerRef, Kind ownerRef, None))).
Proof.
  intros fuel namespace s. split; [reflexivity|]. split.
  { intros ownerRef rest rest'. by destruct fuel. }
  split; [reflexivity|]. split; [by repeat split|].
  intros [kind name] rest. simpl.
  destruct (String.eqb_spec kind "ReplicaSet") as [->|_]; [reflexivity|].
  destruct (String.eqb_spec kind "StatefulSet") as [->|_]; [reflexivity|].
  destruct (String.eqb_spec kind "Deployment") as [->|_]; [reflexivity|].
  destruct (String.eqb_spec kind "DaemonSet") as [->|_]; reflexivity.
Qed.

Lemma findTopOwner_S fuel namespace ownerRefs s r :
  kubernetes.findTopOwner fuel namespace ownerRefs s = Some r ->
  kubernetes.findTopOwner (S fuel) namespace ownerRefs s = Some r.
Proof.
  revert ownerRefs s. induction fuel as [|fuel IH]; intros ownerRefs s; [discriminate|].
  destruct ownerRefs as [|[kind name] rest]; [done|].
  change (kubernetes.findTopOwner (S (S fuel)) namespace ({| Kind := kind; Name := name |} :: rest) s)
    with (if kind =? "ReplicaSet" then
            let '(s, r) := ReplicaSets_Get namespace name s in
            match r with
            | Err e => Some (s, ("", "", Some e))
            | Ok rs => kubernetes.findTopOwner (S fuel) namespace (ReplicaSet_OwnerReferences rs) s
            end
          else if kind =? "StatefulSet" then Some (s, (name, "StatefulSet", None))
          else if kind =? "Deployment" then Some (s, (name, "Deployment", None))
          else if kind =? "DaemonSet" then Some (s, (name, "DaemonSet", None))
          else Some (s, (name, kind, None))).
  simpl. destruct (kind =? "ReplicaSet"); [|done].
  destruct (ReplicaSets_Get namespace name s) as [s' [rs|e]]; [|done].
  apply IH.
Qed.

Lemma findTopOwner_mono fuel fuel' namespace ownerRefs s r :
  fuel <= fuel' ->
  kubernetes.findTopOwner fuel namespace ownerRefs s = Some r ->
  kubernetes.findTopOwner fuel' namespace ownerRefs s = Some r.
Proof.
  induction 1 as [|fuel' _ IH]; [done|]. intros H. by apply findTopOwner_S, IH.
Qed.

(** The resolver never answers ReplicaSet, and it changes no object. *)
Lemma findTopOwner_result fuel namespace ownerRefs s s' name kind err :
  kubernetes.findTopOwner fuel namespace ownerRefs s = Some (s', (name, kind, err)) ->
  kind <> "ReplicaSet" /\ same_objects s s' /\
  (err <> None -> name = "" /\ kind = "").
Proof.
  revert ownerRefs s. induction fuel as [|fuel IH]; intros ownerRefs s; [discriminate|].
  destruct ownerRefs as [|[k n] rest]; simpl.
  { intros [= <- <- <- <-]. split; [done|]. split; [apply same_objects_refl|done]. }
  destruct (String.eqb_spec k "ReplicaSet") as [->|Hrs].
  { destruct (ReplicaSets_Get namespace n s) as [s1 [rs|e]] eqn:E;
      apply ReplicaSets_Get_spec in E as (Hobj & _).
    - intros H. apply IH in H as (? & ? & ?). split; [done|].
      split; [by eapply same_objects_trans|done].
    - intros [= <- <- <- <-]. split; [done|]. by split. }
  destruct (String.eqb_spec k "StatefulSet") as [->|_];
    [intros [= <- <- <- <-]; split; [done|]; split; [apply same_objects_refl|done]|].
  destruct (String.eqb_spec k "Deployment") as [->|_];
    [intros [= <- <- <- <-]; split; [done|]; split; [apply same_objects_refl|done]|].
  destruct (String.eqb_spec k "DaemonSet") as [->|_];
    [intros [= <- <- <- <-]; split; [done|]; split; [apply same_objects_refl|done]|].
  intros [= <- <- <- <-]. split; [done|]. split; [apply same_objects_refl|done].
Qed.

Lemma classify_not_ReplicaSet kind : kind <> "ReplicaSet" -> is_Some (classify kind).
Proof.
  intros H. unfold classify.
  destruct (kind =? ""); [by eexists|].
  destruct (kind =? "Deployment"); [by eexists|].
  destruct (kind =? "StatefulSet"); [by eexists|].
  destruct (kind =? "DaemonSet"); [by eexists|].
  destruct (String.eqb_spec kind "ReplicaSet"); [done|by eexists].
Qed.

(** A call that runs out of fuel has spent every unit of it on a ReplicaSet
    that exists. *)
Lemma findTopOwner_None_chain fuel namespace ownerRefs s :
  kubernetes.findTopOwner fuel namespace ownerRefs s = None ->
  length (ownerChain fuel namespace ownerRefs s) = fuel /\
  Forall (fun name => is_Some (replicasets s !! (namespace, name)))
         (ownerChain fuel namespace ownerRefs s).
Proof.
  revert ownerRefs s. induction fuel as [|fuel IH]; intros ownerRefs s; [done|].
  destruct ownerRefs as [|[k n] rest]; simpl; [done|].
  destruct (String.eqb_spec k "ReplicaSet") as [->|Hrs].
  - destruct (ReplicaSets_Get namespace n s) as [s1 [rs|e]] eqn:E; [|done].
    apply ReplicaSets_Get_spec in E as (Hobj & _ & _ & Hrs).
    intros H. apply IH in H as [Hlen Hall]. simpl. split; [by rewrite Hlen|].
    constructor; [rewrite (Hrs rs eq_refl); by eexists|].
    destruct Hobj as (_ & Heq & _). by rewrite <- Heq.
  - repeat (case_match; [done|]). done.
Qed.

Lemma distinct_keys_bound {A} (m : gmap (string * string) A) (namespace : string)
      (l : list string) :
  NoDup l -> Forall (fun name => is_Some (m !! (namespace, name))) l -> length l <= size m.
Proof.
  intros Hnd Hall.
  rewrite <- (length_fmap (pair namespace) l), <- size_dom.
  change (size (dom m)) with (length (elements (dom m))).
  apply submseteq_length, NoDup_submseteq.
  - apply NoDup_fmap_2; [|done]. by intros ?? [= ->].
  - intros x Hx. apply list_elem_of_fmap in Hx as (name & -> & Hname).
    apply elem_of_elements, elem_of_dom.
    rewrite Forall_forall in Hall. by apply Hall.
Qed.

(** C7. On an owner chain that never revisits a ReplicaSet, findTopOwner
    returns: one more unit of fuel than there are ReplicaSets in the cluster
    is enough, and more fuel gives the same result.  The kind it returns is
    none (empty), Deployment, StatefulSet, DaemonSet or another literal
    kind, never ReplicaSet; with no owner reference the result is the pair
    of empty strings without error. *)
Theorem findTopOwner_terminates :
  forall (namespace : string) (ownerRefs : list OwnerReference) (s : Server),
    acyclic namespace ownerRefs s ->
    exists s' name kind err,
      (forall fuel, size (replicasets s) < fuel ->
         kubernetes.findTopOwner fuel namespace ownerRefs s = Some (s', (name, kind, err))) /\
      is_Some (classify kind) /\
      (ownerRefs = [] -> s' = s /\ name = "" /\ kind = "" /\ err = None).
Proof.
  intros namespace ownerRefs s Hacyclic.
  destruct (kubernetes.findTopOwner (S (size (replicasets s))) namespace ownerRefs s)
    as [[s' [[name kind] err]]|] eqn:E.
  - exists s', name, kind, err. split; [|split].
    + intros fuel Hfuel. eapply findTopOwner_mono; [|exact E]. lia.
    + apply findTopOwner_result in E as (Hk & _). by apply classify_not_ReplicaSet.
    + intros ->. simpl in E. by injection E as <- <- <- <-.
  - apply findTopOwner_None_chain in E as [Hlen Hall].
    pose proof (distinct_keys_bound _ _ _ (Hacyclic _) Hall) as Hbound. lia.
Qed.

Lemma findTopOwner_terminates_witness :
  acyclic "default" (sample.ownedBy "ReplicaSet" "app1-5d4f") sample.app1Cluster /\
  exists s' name kind err,
    (forall fuel, size (replicasets sample.app1Cluster) < fuel ->
       kubernetes.findTopOwner fuel "default" (sample.ownedBy "ReplicaSet" "app1-5d4f")
         sample.app1Cluster = Some (s', (name, kind, err))) /\
    is_Some (classify kind) /\
    (sample.ownedBy "ReplicaSet" "app1-5d4f" = [] ->
     s' = sample.app1Cluster /\ name = "" /\ kind = "" /\ err = None).
Proof.
  assert (Hacyclic : acyclic "default" (sample.ownedBy "ReplicaSet" "app1-5d4f")
                             sample.app1Cluster).
  { intros [|[|fuel]]; vm_compute; first [apply NoDup_nil_2 | apply NoDup_singleton]. }
  split; [exact Hacyclic|].
  exact (findTopOwner_terminates _ _ _ Hacyclic).
Defined.

Example findTopOwner_app1 :
  fmap snd (kubernetes.findTopOwner 2 "default" (sample.ownedBy "ReplicaSet" "app1-5d4f")
              sample.app1Cluster)
  = Some ("app1", "Deployment", None).
Proof. vm_compute. reflexivity. Qed.

(** Without that hypothesis the recursion need not return: on a ReplicaSet
    that owns itself no amount of fuel is enough. *)
Lemma findTopOwner_self_owned_diverges :
  forall fuel,
    kubernetes.findTopOwner fuel "default" (sample.ownedBy "ReplicaSet" "loop")
      sample.selfOwnedCluster = None.
Proof.
  assert (H : forall fuel s,
             replicasets s = replicasets sample.selfOwnedCluster -> faults s = [] ->
             kubernetes.findTopOwner fuel "default" (sample.ownedBy "ReplicaSet" "loop") s = None).
  { induction fuel as [|fuel IH]; intros s Hrs Hf; [done|].
    simpl. unfold ReplicaSets_Get, fetch, receive. rewrite Hf, Hrs. simpl.
    change (replicasets sample.selfOwnedCluster !! ("default", "loop"))
      with (Some {| ReplicaSet_OwnerReferences := sample.ownedBy "ReplicaSet" "loop" |}).
    apply IH; done. }
  intros fuel. by apply H.
Qed.

(** ** Pod restart operator *)

Lemma findTopOwner_calls fuel namespace ownerRefs s s' r :
  kubernetes.findTopOwner fuel namespace ownerRefs s = Some (s', r) ->
  calls s' = (calls s ++ (GetReplicaSet namespace <$> ownerChain fuel namespace ownerRefs s))%list.
Proof.
  revert ownerRefs s. induction fuel as [|fuel IH]; intros ownerRefs s; [discriminate|].
  destruct ownerRefs as [|[k n] rest]; simpl.
  { intros [= <- <-]. by rewrite app_nil_r. }
  destruct (String.eqb_spec k "ReplicaSet") as [->|Hrs].
  - destruct (ReplicaSets_Get namespace n s) as [s1 [rs|e]] eqn:E;
      apply ReplicaSets_Get_spec in E as (_ & Hcalls & _).
    + intros H. apply IH in H. rewrite H, Hcalls. simpl. by rewrite <- app_assoc.
    + intros [= <- <-]. by rewrite Hcalls.
  - repeat case_match; intros [= <- <-]; by rewrite app_nil_r.
Qed.

Lemma Pods_Delete_spec namespace name s s' err :
  Pods_Delete namespace name s = (s', err) ->
  calls s' = (calls s ++ [DeletePod namespace name])%list /\
  match err with
  | None => pods s' = delete (namespace, name) (pods s)
  | Some _ => pods s' = pods s
  end.
Proof.
  unfold Pods_Delete. destruct (receive _ s) as [s1 fault] eqn:E.
  pose proof (receive_spec (DeletePod namespace name) s) as ((Hp & _) & Hcalls & _).
  rewrite E in *. simpl in *.
  destruct fault as [e|]; [by intros [= <- <-]|].
  destruct (pods s1 !! (namespace, name)); intros [= <- <-]; simpl; by rewrite ?Hp.
Qed.

(** C8, as the code has it.  RestartPod first fetches the pod; when the
    fetch fails it returns that error wrapped and sends nothing else.  It
    then resolves the owner: a failed ReplicaSet lookup is returned wrapped
    as a failed-to-find-top-owner error, and an empty owner name without
    error gives the no-owner-found error; in both cases the only requests
    sent are the pod fetch and the ReplicaSet lookups, and no pod is
    removed.  Otherwise it sends one delete request, which is its last
    request: a failed deletion is returned wrapped in a failed-to-delete
    error whose cause is the deletion error, and a successful one removes
    the pod and returns no error. *)
Theorem RestartPod_cases :
  forall (fuel : nat) (namespace podName : string) (s : Server),
    let '(s1, r) := Pods_Get namespace podName s in
    match r with
    | Err e =>
        kubernetes.RestartPod fuel namespace podName s
        = Some (s1, Some (Errorf ("failed to get pod " +:+ podName +:+ " in namespace "
                                +:+ namespace +:+ ": ") (Some e)))
        /\ same_objects s s1
        /\ calls s1 = (calls s ++ [GetPod namespace podName])%list
    | Ok pod =>
        match kubernetes.findTopOwner fuel namespace (Pod_OwnerReferences pod) s1 with
        | None => kubernetes.RestartPod fuel namespace podName s = None
        | Some (s2, (ownerName, _, lookup)) =>
            let requests :=
              GetPod namespace podName ::
              (GetReplicaSet namespace <$> ownerChain fuel namespace (Pod_OwnerReferences pod) s1) in
            calls s2 = (calls s ++ requests)%list /\ same_objects s s2 /\
            match lookup with
            | Some e =>
                kubernetes.RestartPod fuel namespace podName s
                = Some (s2, Some (Errorf ("failed to find top owner for pod " +:+ podName
                                        +:+ " in namespace " +:+ namespace +:+ ": ") (Some e)))
            | None =>
                if ownerName =? "" then
                  kubernetes.RestartPod fuel namespace podName s
                  = Some (s2, Some (errorString ("no owner found for pod " +:+ podName
                                               +:+ " in namespace " +:+ namespace)))
                else
                  let '(s3, deletion) := Pods_Delete namespace podName s2 in
                  calls s3 = (calls s ++ requests ++ [DeletePod namespace podName])%list /\
                  match deletion with
                  | Some e =>
                      kubernetes.RestartPod fuel namespace podName s
                      = Some (s3, Some (Errorf ("failed to delete pod " +:+ podName
                                              +:+ " in namespace " +:+ namespace +:+ ": ")
                                             (Some e)))
                      /\ pods s3 = pods s
                  | None =>
                      kubernetes.RestartPod fuel namespace podName s = Some (s3, None)
                      /\ pods s3 = delete (namespace, podName) (pods s)
                  end
            end
        end
    end.
Proof.
  intros fuel namespace podName s. unfold kubernetes.RestartPod.
  destruct (Pods_Get namespace podName s) as [s1 [pod|e]] eqn:Eget;
    apply Pods_Get_spec in Eget as (Hobj1 & Hcalls1 & _); [|done].
  destruct (kubernetes.findTopOwner fuel namespace (Pod_OwnerReferences pod) s1)
    as [[s2 [[ownerName kind] lookup]]|] eqn:Eowner; [|done].
  pose proof (findTopOwner_calls _ _ _ _ _ _ Eowner) as Hcalls2.
  apply findTopOwner_result in Eowner as (_ & Hobj2 & _).
  assert (Hobj : same_objects s s2) by (by eapply same_objects_trans).
  split; [by rewrite Hcalls2, Hcalls1, <- app_assoc|]. split; [done|].
  destruct lookup as [e|]; [done|].
  destruct (ownerName =? ""); [done|].
  destruct (Pods_Delete namespace podName s2) as [s3 deletion] eqn:Edel.
  apply Pods_Delete_spec in Edel as (Hcalls3 & Hpods).
  split; [by rewrite Hcalls3, Hcalls2, Hcalls1, <- !app_assoc|].
  destruct Hobj as (Hp & _). rewrite Hp in Hpods. by destruct deletion.
Qed.

(** C8 as stated fails at two inputs.  With the ReplicaSet of the pod gone,
    the pod fetch succeeds and the owner chain yields an empty owner name,
    yet the error is not the no-owner-found error (and the pod is kept, so
    the call is not in the remaining case either).  With a failing delete
    request, the error returned is not the deletion error itself. *)
Lemma RestartPod_claim_counterexample :
  (exists s2 lookup,
      kubernetes.findTopOwner 5 "default" (sample.ownedBy "ReplicaSet" "app1-5d4f")
        (fst (Pods_Get "default" "app1-5d4f-x2x" sample.danglingCluster))
      = Some (s2, ("", "", Some lookup)) /\
      kubernetes.RestartPod 5 "default" "app1-5d4f-x2x" sample.danglingCluster
      = Some (s2, Some (wrapError
                          ("failed to find top owner for pod app1-5d4f-x2x in namespace default: "
                           +:+ Error lookup) lookup)) /\
      pods s2 = pods sample.danglingCluster /\
      calls s2 = [GetPod "default" "app1-5d4f-x2x"; GetReplicaSet "default" "app1-5d4f"]) /\
  (exists s3 err,
      kubernetes.RestartPod 5 "default" "app1-5d4f-x2x"
        (sample.with_faults sample.app1Cluster [None; None; Some sample.internalError])
      = Some (s3, Some err) /\
      err <> sample.internalError /\
      Unwrap err = Some sample.internalError /\
      calls s3 = [GetPod "default" "app1-5d4f-x2x"; GetReplicaSet "default" "app1-5d4f";
                  DeletePod "default" "app1-5d4f-x2x"]).
Proof.
  split.
  - eexists _, _. vm_compute. repeat split.
  - eexists _, _. split; [vm_compute; reflexivity|]. by repeat split.
Qed.

(** ** Volume driver resolver, cluster-metadata variant *)

Import provisioner.

Lemma PersistentVolumeClaims_Get_spec namespace name s s' r :
  PersistentVolumeClaims_Get namespace name s = (s', r) ->
  same_objects s s' /\
  calls s' = (calls s ++ [GetPersistentVolumeClaim namespace name])%list /\
  faults s' = tail (faults s) /\
  (forall pvc, r = Ok pvc -> pvcs s !! (namespace, name) = Some pvc).
Proof. apply fetch_spec. by intros ?? (?&?&?&?&?&?). Qed.

(** C3, as the code has it.  The resolver fetches the claim (a failed fetch
    is returned, wrapped twice).  It then reads the legacy beta key
    volume.beta.kubernetes.io/storage-provisioner first and the current key
    volume.kubernetes.io/storage-provisioner second, and returns the first
    value that is not empty; in both cases the claim fetch is the only
    request sent, so the volume is not consulted.  When both are empty or
    missing it fetches the volume named by the claim and returns the driver
    of its CSI source, or the is-not-a-CSI-volume error when it has none. *)
Theorem GetDriverName_resolution :
  forall (podUUID podName pvcName namespace : string) (s : Server),
    let '(s1, r) := PersistentVolumeClaims_Get namespace pvcName s in
    calls s1 = (calls s ++ [GetPersistentVolumeClaim namespace pvcName])%list /\
    match r with
    | Err e =>
        volume.GetDriverName podUUID podName pvcName namespace s
        = (s1, ("", Some (Errorf ("failed to get PVC " +:+ pvcName +:+ " in namespace "
                                  +:+ namespace +:+ ": ")
                            (Some (Errorf ("failed to get PVC " +:+ pvcName
                                           +:+ " in namespace " +:+ namespace +:+ ": ")
                                     (Some e))))))
    | Ok pvc =>
        let beta := annotation pvc betaProvisionerKey in
        let current := annotation pvc provisionerKey in
        if negb (beta =? "") then
          volume.GetDriverName podUUID podName pvcName namespace s = (s1, (beta, None))
        else if negb (current =? "") then
          volume.GetDriverName podUUID podName pvcName namespace s = (s1, (current, None))
        else
          let pvName := Spec_VolumeName pvc in
          let '(s2, r2) := PersistentVolumes_Get pvName s1 in
          match r2 with
          | Err e =>
              volume.GetDriverName podUUID podName pvcName namespace s
              = (s2, ("", Some (Errorf ("failed to get PV " +:+ pvName +:+ ": ")
                                  (Some (Errorf ("failed to get PV " +:+ pvName +:+ ": ")
                                           (Some e))))))
          | Ok pv =>
              match Spec_CSI pv with
              | Some csi =>
                  volume.GetDriverName podUUID podName pvcName namespace s
                  = (s2, (Driver csi, None))
              | None =>
                  volume.GetDriverName podUUID podName pvcName namespace s
                  = (s2, ("", Some (errorString ("PV " +:+ pvName +:+ " is not a CSI volume"))))
              end
          end
    end.
Proof.
  intros podUUID podName pvcName namespace s.
  unfold volume.GetDriverName, volume.getPVC, kubernetes.GetPVC, kubernetes.GetPV.
  destruct (PersistentVolumeClaims_Get namespace pvcName s) as [s1 [pvc|e]] eqn:E;
    apply PersistentVolumeClaims_Get_spec in E as (_ & Hcalls & _);
    (split; [done|]); [|done].
  unfold annotation, betaProvisionerKey, provisionerKey.
  destruct (Annotations pvc) as [annotations|]; simpl.
  - destruct (index annotations "volume.beta.kubernetes.io/storage-provisioner" =? "");
      [|done]. simpl.
    destruct (index annotations "volume.kubernetes.io/storage-provisioner" =? "");
      [|done]. simpl.
    destruct (PersistentVolumes_Get (Spec_VolumeName pvc) s1) as [s2 [pv|e]]; [|done].
    by destruct (Spec_CSI pv).
  - destruct (PersistentVolumes_Get (Spec_VolumeName pvc) s1) as [s2 [pv|e]]; [|done].
    by destruct (Spec_CSI pv).
Qed.

(** C3 as stated fails: the claim below carries the current-format
    annotation with the value csi.example.com, and the resolver returns the
    value of the legacy beta annotation, which it reads first. *)
Lemma GetDriverName_reads_beta_key_first :
  annotation {| Annotations :=
                  Some {[ betaProvisionerKey := "legacy.example.com";
                          provisionerKey := "csi.example.com" ]};
                Spec_VolumeName := "pv-data" |} provisionerKey = "csi.example.com" /\
  pvcs sample.claimCluster !! ("default", "data")
  = Some {| Annotations :=
              Some {[ betaProvisionerKey := "legacy.example.com";
                      provisionerKey := "csi.example.com" ]};
            Spec_VolumeName := "pv-data" |} /\
  snd (volume.GetDriverName "uid-1" "app1-5d4f-x2x" "data" "default" sample.claimCluster)
  = ("legacy.example.com", None) /\
  "legacy.example.com" <> "csi.example.com".
Proof. vm_compute. by repeat split. Qed.

(** C10. The resolver does not read its pod arguments: with the same claim
    name, claim namespace and cluster, any two pod UIDs and pod names give
    the same value, the same error and the same requests. *)
Theorem GetDriverName_ignores_pod_arguments :
  forall (podUUID podName podUUID' podName' pvcName namespace : string) (s : Server),
    volume.GetDriverName podUUID podName pvcName namespace s
    = volume.GetDriverName podUUID' podName' pvcName namespace s.
Proof. reflexivity. Qed.

(** ** Remediation loop *)

(** C2, as the code has it.  For a volume with a claim reference whose
    driver is resolved and found in the registry: an error of either
    capability query, and also a volume-condition answer of false, makes
    the loop log one record and go to the next volume with no request sent
    to the cluster; when volume-condition is supported and the
    stage/unstage query returns without error, the cluster is left as
    RestartPod on this pod leaves it if stage/unstage is not supported, and
    as ScaleOwner on this pod with target 0 leaves it if it is. *)
Theorem remediation_dispatch :
  forall (controllers : Server -> Server) (fuel : nat) (kubeClient : kubernetes.client)
         (drivers : gmap string csi.Client) (podName podUUID : string)
         (v : remediation.VolumeStats) (pvcRef : remediation.PVCReference)
         (s s1 : Server) (logger : Logger) (driver : string) (client : csi.Client),
    remediation.PVCRef v = Some pvcRef ->
    volume.GetDriverName podUUID podName (remediation.PVC_Name pvcRef)
      (remediation.PVC_Namespace pvcRef) s = (s1, (driver, None)) ->
    drivers !! driver = Some client ->
    let body :=
      remediation.volumeBody controllers fuel kubeClient drivers podName podUUID v (s, logger) in
    let '(l1, (condition, e1)) := csi.Client_NodeSupportsVolumeCondition client logger in
    match e1 with
    | Some _ =>
        body = Some (s1, Error_ l1 "failed to check if the node supports volume condition")
    | None =>
        if negb condition then
          body = Some (s1, Info l1 "node does not support volume condition")
        else
          let '(l2, (staging, e2)) := csi.Client_NodeSupportsStageUnstage client l1 in
          match e2 with
          | Some _ =>
              body = Some (s1, Error_ l2 "failed to check if the node supports stage unstage")
          | None =>
              if staging then
                fst <$> body
                = fst <$> kubernetes.ScaleOwner controllers fuel kubeClient
                            (remediation.PVC_Namespace pvcRef) podName 0 s1
              else
                fst <$> body
                = fst <$> kubernetes.RestartPod fuel (remediation.PVC_Namespace pvcRef)
                            podName s1
          end
    end.
Proof.
  intros controllers fuel kubeClient drivers podName podUUID v pvcRef s s1 logger driver
         client Hv Hdriver Hclient.
  unfold remediation.volumeBody. rewrite Hv, Hdriver, Hclient.
  destruct (csi.Client_NodeSupportsVolumeCondition client logger)
    as [l1 [condition [e1|]]]; [done|].
  destruct condition; simpl; [|done].
  destruct (csi.Client_NodeSupportsStageUnstage client l1) as [l2 [staging [e2|]]]; [done|].
  destruct staging; simpl.
  - destruct (kubernetes.ScaleOwner _ _ _ _ _ _ s1) as [[s2 [e|]]|]; done.
  - destruct (kubernetes.RestartPod _ _ _ s1) as [[s2 [e|]]|]; done.
Qed.

(** Scenario A: volume-condition supported, stage/unstage not: the pod is
    deleted and no scale request is sent. *)
Lemma remediation_dispatch_witness :
  let drivers := sample.registry
                   (sample.driverWith [csi.NodeServiceCapability_RPC_VOLUME_CONDITION]) in
  let body :=
    remediation.volumeBody sample.promptControllers 5 (kubernetes.NewClient "minikube")
      drivers "app1-5d4f-x2x" "uid-1" sample.scenarioVolume (sample.scenarioCluster, []) in
  let s1 := fst (volume.GetDriverName "uid-1" "app1-5d4f-x2x" "data" "default"
                   sample.scenarioCluster) in
  fst <$> body = fst <$> kubernetes.RestartPod 5 "default" "app1-5d4f-x2x" s1 /\
  calls <$> (fst <$> body)
  = Some [GetPersistentVolumeClaim "default" "data"; GetPod "default" "app1-5d4f-x2x";
          GetReplicaSet "default" "app1-5d4f"; DeletePod "default" "app1-5d4f-x2x"].
Proof.
  split; [|vm_compute; reflexivity].
  exact (remediation_dispatch sample.promptControllers 5 (kubernetes.NewClient "minikube")
           (sample.registry (sample.driverWith [csi.NodeServiceCapability_RPC_VOLUME_CONDITION]))
           "app1-5d4f-x2x" "uid-1" sample.scenarioVolume
           {| remediation.PVC_Name := "data"; remediation.PVC_Namespace := "default" |}
           sample.scenarioCluster _ [] "csi.example.com" _ eq_refl eq_refl eq_refl).
Defined.

(** C2 as stated fails: the driver below answers both capability queries
    without error, stage/unstage is not supported, and the loop sends no
    request after resolving the driver, although RestartPod on this pod
    would delete it.  The volume-condition answer of false made it skip. *)
Lemma volume_condition_false_skips_remediation :
  let client := csi.asClient (sample.driverWith []) in
  let drivers := sample.registry (sample.driverWith []) in
  let body :=
    remediation.volumeBody sample.promptControllers 5 (kubernetes.NewClient "minikube")
      drivers "app1-5d4f-x2x" "uid-1" sample.scenarioVolume (sample.scenarioCluster, []) in
  let s1 := fst (volume.GetDriverName "uid-1" "app1-5d4f-x2x" "data" "default"
                   sample.scenarioCluster) in
  snd (volume.GetDriverName "uid-1" "app1-5d4f-x2x" "data" "default" sample.scenarioCluster)
  = ("csi.example.com", None) /\
  drivers !! "csi.example.com" = Some client /\
  snd (csi.Client_NodeSupportsVolumeCondition client []) = (false, None) /\
  snd (csi.Client_NodeSupportsStageUnstage client []) = (false, None) /\
  fst <$> body = Some s1 /\
  calls s1 = [GetPersistentVolumeClaim "default" "data"] /\
  calls <$> (fst <$> kubernetes.RestartPod 5 "default" "app1-5d4f-x2x" s1)
  = Some [GetPersistentVolumeClaim "default" "data"; GetPod "default" "app1-5d4f-x2x";
          GetReplicaSet "default" "app1-5d4f"; DeletePod "default" "app1-5d4f-x2x"] /\
  fst <$> body <> fst <$> kubernetes.RestartPod 5 "default" "app1-5d4f-x2x" s1.
Proof.
  vm_compute. repeat split. discriminate.
Qed.

(** Scenario B: both capabilities supported: app1 is scaled 3 to 0, seen
    at 0 on the second poll, and scaled back to 3; no pod is deleted. *)
Example scenario_bounce :
  let drivers := sample.registry
                   (sample.driverWith [csi.NodeServiceCapability_RPC_VOLUME_CONDITION;
                                       csi.NodeServiceCapability_RPC_STAGE_UNSTAGE_VOLUME]) in
  let body :=
    remediation.volumeBody sample.promptControllers 5 (kubernetes.NewClient "minikube")
      drivers "app1-5d4f-x2x" "uid-1" sample.scenarioVolume (sample.scenarioCluster, []) in
  calls <$> (fst <$> body)
  = Some [GetPersistentVolumeClaim "default" "data"; GetPod "default" "app1-5d4f-x2x";
          GetReplicaSet "default" "app1-5d4f"; GetDeployment "default" "app1";
          UpdateDeployment "default" "app1" (Some 0%Z);
          GetDeployment "default" "app1"; GetDeployment "default" "app1";
          UpdateDeployment "default" "app1" (Some 3%Z)] /\
  (fun s => sample.desiredDeployment s "default" "app1") <$> (fst <$> body)
  = Some (Some (Some 3%Z)).
Proof. vm_compute. by split. Qed.

(** Scenario C: the driver of the claim is not in the registry: one record
    is logged and nothing but the claim fetch is sent. *)
Example scenario_unknown_driver :
  let body :=
    remediation.volumeBody sample.promptControllers 5 (kubernetes.NewClient "minikube")
      ∅ "app1-5d4f-x2x" "uid-1" sample.scenarioVolume (sample.scenarioCluster, []) in
  calls <$> (fst <$> body) = Some [GetPersistentVolumeClaim "default" "data"] /\
  snd <$> body = Some [(INFO, "driver not found")].
Proof. vm_compute. by split. Qed.

(** ** Workload bounce operator *)

(** C1, at the failing input.  The Deployment app1 wants 3 replicas.  The
    scale-down and the wait succeed, and the restoring update is refused
    with a version conflict.  RetryOnConflict runs the function again: it
    records the count it now reads, 0, as the original one, and the run
    ends without error with app1 left at 0 desired replicas. *)
Theorem bounce_retry_leaves_zero :
  let conflict := NewConflict "deployments.apps" "app1" in
  let s := sample.with_faults sample.app1Cluster [None; None; None; None; Some conflict] in
  let run := kubernetes.scaleDeployment sample.promptControllers
               (kubernetes.NewClient "minikube") "app1" "default" 0 s in
  sample.desiredDeployment s "default" "app1" = Some (Some 3%Z) /\
  snd run = None /\
  sample.desiredDeployment (fst run) "default" "app1" = Some (Some 0%Z) /\
  calls (fst run)
  = [ GetDeployment "default" "app1";
      UpdateDeployment "default" "app1" (Some 0%Z);
      GetDeployment "default" "app1";
      GetDeployment "default" "app1";
      UpdateDeployment "default" "app1" (Some 3%Z);
      GetDeployment "default" "app1";
      UpdateDeployment "default" "app1" (Some 0%Z);
      GetDeployment "default" "app1";
      UpdateDeployment "default" "app1" (Some 0%Z) ].
Proof. vm_compute. by repeat split. Qed.

(** Without the conflict the same run restores the 3 replicas. *)
Example bounce_without_conflict :
  let run := kubernetes.scaleDeployment sample.promptControllers
               (kubernetes.NewClient "minikube") "app1" "default" 0 sample.app1Cluster in
  snd run = None /\
  sample.desiredDeployment (fst run) "default" "app1" = Some (Some 3%Z).
Proof. vm_compute. by repeat split. Qed.

Lemma Deployments_Update_calls namespace d s s' r :
  Deployments_Update namespace d s = (s', r) ->
  calls s' = (calls s ++ [UpdateDeployment namespace (Deployment_Name d)
                            (Deployment_Spec_Replicas d)])%list.
Proof.
  unfold Deployments_Update. destruct (receive _ s) as [s1 fault] eqn:E.
  pose proof (receive_spec (UpdateDeployment namespace (Deployment_Name d)
                              (Deployment_Spec_Replicas d)) s) as (_ & Hcalls & _).
  rewrite E in Hcalls. simpl in Hcalls.
  destruct fault; [by intros [= <- <-]|].
  destruct (deployments s1 !! _); by intros [= <- <-].
Qed.

(** One execution of the function that returns no error ends with an update
    that writes back the count this very execution read at its start:
    under RetryOnConflict that is the count read by the last execution, not
    by the first. *)
Lemma scaleDeployment_func_restores_what_it_read controllers c name namespace s s' :
  kubernetes.scaleDeployment_func controllers c name namespace 0 s = (s', None) ->
  exists s1 deployment,
    Deployments_Get namespace name s = (s1, Ok deployment) /\
    last (calls s')
    = Some (UpdateDeployment namespace (Deployment_Name deployment)
              (Deployment_Spec_Replicas deployment)).
Proof.
  unfold kubernetes.scaleDeployment_func.
  destruct (Deployments_Get namespace name s) as [s1 [deployment|e]]; [|done].
  simpl. unfold kubernetes.int32Ptr.
  destruct (Deployments_Update namespace _ s1) as [s2 [d2|e]]; [|done]. simpl.
  destruct (kubernetes.waitForReplicasToBeZero _ _ _ _ _ s2) as [s3 [quiesce|]].
  - destruct (Deployments_Update namespace _ s3) as [s4 [d4|e]]; done.
  - destruct (Deployments_Update namespace _ s3) as [s4 [d4|e]] eqn:E; [|done].
    intros [= <-]. exists s1, deployment. split; [done|].
    apply Deployments_Update_calls in E. rewrite E. simpl. apply last_snoc.
Qed.

(** The wait of scaleStateFulSet asks checkReplicas for the kind
    StatefulSets, which checkReplicas does not know: its first poll fails. *)
Lemma waitForReplicasToBeZero_StatefulSets controllers c namespace name s :
  kubernetes.waitForReplicasToBeZero controllers c namespace name "StatefulSets" s
  = (s, Some (errorString "unsupported kind: StatefulSets")).
Proof.
  unfold kubernetes.waitForReplicasToBeZero, kubernetes.pollAttempts.
  by rewrite Nat.add_1_r.
Qed.

(** The same defect on a StatefulSet: the conflict hits the revert that
    follows the failed wait, the second run reads 0 as the original count,
    and web is left at 0 desired replicas with a scale-down error. *)
Example bounce_retry_leaves_zero_StatefulSet :
  let conflict := NewConflict "statefulsets.apps" "web" in
  let s := sample.with_faults sample.webCluster [None; None; Some conflict] in
  let run := kubernetes.scaleStateFulSet sample.promptControllers
               (kubernetes.NewClient "minikube") "web" "default" 0 s in
  sample.desiredStatefulSet s "default" "web" = Some (Some 3%Z) /\
  snd run = Some (errorString "failed to scale down the StatefulSets: %!w(<nil>)") /\
  sample.desiredStatefulSet (fst run) "default" "web" = Some (Some 0%Z).
Proof. vm_compute. by repeat split. Qed.

(** C4, the revert that succeeds.  When the wait fails with [quiesce] and
    the revert update succeeds, scaleDeployment returns one fixed error
    that wraps nothing: the text of the format with the bad-verb marker in
    place of the quiesce error, whatever that error was. *)
Theorem quiesce_error_not_surfaced :
  forall (controllers : Server -> Server) (c : kubernetes.client) (name namespace : string)
         (s s1 s2 s3 s4 : Server) (deployment d2 d4 : Deployment) (quiesce : error),
    Deployments_Get namespace name s = (s1, Ok deployment) ->
    Deployments_Update namespace
      (kubernetes.Deployment_with_Replicas deployment (Some 0%Z)) s1 = (s2, Ok d2) ->
    kubernetes.waitForReplicasToBeZero controllers c namespace name "Deployment" s2
    = (s3, Some quiesce) ->
    Deployments_Update namespace
      (kubernetes.Deployment_with_Replicas
         (kubernetes.Deployment_with_Replicas deployment (Some 0%Z))
         (Deployment_Spec_Replicas deployment)) s3 = (s4, Ok d4) ->
    kubernetes.scaleDeployment controllers c name namespace 0 s
    = (s4, Some (errorString "failed to scale down the deployment: %!w(<nil>)")) /\
    Unwrap (errorString "failed to scale down the deployment: %!w(<nil>)") = None.
Proof.
  intros controllers c name namespace s s1 s2 s3 s4 deployment d2 d4 quiesce
         Hget Hdown Hwait Hrevert.
  split; [|reflexivity].
  unfold kubernetes.scaleDeployment, RetryOnConflict, DefaultRetry.
  simpl. unfold kubernetes.scaleDeployment_func.
  rewrite Hget. simpl. unfold kubernetes.int32Ptr. rewrite Hdown. simpl.
  rewrite Hwait, Hrevert. reflexivity.
Qed.

(** Scenario D: the controllers never act, the wait times out after its 61
    polls, the revert restores the 3 replicas, and the error returned does
    not carry the timeout. *)
Lemma quiesce_error_not_surfaced_witness :
  exists s4,
    (kubernetes.scaleDeployment sample.stuckControllers (kubernetes.NewClient "minikube")
       "app1" "default" 0 sample.app1Cluster
     = (s4, Some (errorString "failed to scale down the deployment: %!w(<nil>)")) /\
     Unwrap (errorString "failed to scale down the deployment: %!w(<nil>)") = None) /\
    sample.desiredDeployment s4 "default" "app1" = Some (Some 3%Z).
Proof.
  eexists. split.
  - eapply (quiesce_error_not_surfaced sample.stuckControllers (kubernetes.NewClient "minikube")
              "app1" "default" sample.app1Cluster _ _ _ _ _ _ _ DeadlineExceeded).
    + vm_compute. reflexivity.
    + vm_compute. reflexivity.
    + vm_compute. reflexivity.
    + vm_compute. reflexivity.
  - vm_compute. reflexivity.
Defined.

(** A poll that fails with an API error ends in the very same error. *)
Example quiesce_poll_error_same_result :
  snd (kubernetes.scaleDeployment sample.promptControllers (kubernetes.NewClient "minikube")
         "app1" "default" 0
         (sample.with_faults sample.app1Cluster [None; None; Some sample.internalError]))
  = snd (kubernetes.scaleDeployment sample.stuckControllers (kubernetes.NewClient "minikube")
           "app1" "default" 0 sample.app1Cluster).
Proof. vm_compute. reflexivity. Qed.

(** When the revert itself fails, the function handed to RetryOnConflict
    returns the revert error wrapped in a failed-to-revert error. *)
Lemma revert_failure_is_wrapped controllers c name namespace s s1 s2 s3 s4
      deployment d2 quiesce e :
  Deployments_Get namespace name s = (s1, Ok deployment) ->
  Deployments_Update namespace
    (kubernetes.Deployment_with_Replicas deployment (Some 0%Z)) s1 = (s2, Ok d2) ->
  kubernetes.waitForReplicasToBeZero controllers c namespace name "Deployment" s2
  = (s3, Some quiesce) ->
  Deployments_Update namespace
    (kubernetes.Deployment_with_Replicas
       (kubernetes.Deployment_with_Replicas deployment (Some 0%Z))
       (Deployment_Spec_Replicas deployment)) s3 = (s4, Err e) ->
  kubernetes.scaleDeployment_func controllers c name namespace 0 s
  = (s4, Some (wrapError ("failed to revert changes: " +:+ Error e) e)).
Proof.
  intros Hget Hdown Hwait Hrevert. unfold kubernetes.scaleDeployment_func.
  rewrite Hget. simpl. unfold kubernetes.int32Ptr. rewrite Hdown. simpl.
  rewrite Hwait, Hrevert. reflexivity.
Qed.

(* ===================================================================== *)
(** * Further properties of the code                                       *)
(* ===================================================================== *)

(** ** Capability protocol client, further *)

(** X1. A capability query writes one record to the log.  It fails exactly
    when the client has no node stub or the NodeGetCapabilities call fails,
    and then answers false; a nil response without error is an empty
    capability list: false, no error. *)
Theorem capability_query_errors :
  forall (c : csi.client) (logger : Logger) (t : csi.NodeServiceCapability_RPC_Type),
    fst (csi.nodeSupportsCapability c logger t)
    = (logger ++ [(INFO, "calling NodeGetCapabilities rpc to determine if the node service")])%list /\
    (snd (snd (csi.nodeSupportsCapability c logger t)) <> None <->
     csi.NodeClient_ c = None \/
     exists nc resp e,
       csi.NodeClient_ c = Some nc /\ csi.NodeGetCapabilities nc = (resp, Some e)) /\
    (snd (snd (csi.nodeSupportsCapability c logger t)) <> None ->
     fst (snd (csi.nodeSupportsCapability c logger t)) = false) /\
    (forall nc,
        csi.NodeClient_ c = Some nc -> csi.NodeGetCapabilities nc = (None, None) ->
        snd (csi.nodeSupportsCapability c logger t) = (false, None)).
Proof.
  intros [close [[[resp [e|]]]|] identity] logger t;
    unfold csi.nodeSupportsCapability, csi.nodeGetCapabilities; simpl.
  - split; [done|]. split; [|split; [done|]].
    + split; [intros _; right; by eexists _, _, _|done].
    + intros nc [= <-] H. simpl in H. discriminate.
  - split; [done|]. split; [|split; [done|]].
    + split; [done|]. intros [H|(nc & r & e & [= <-] & H)]; simpl in H; discriminate.
    + intros nc [= <-] [= ->]. done.
  - split; [done|]. split; [|split; [done|done]].
    split; [intros _; by left|done].
Qed.

(** X2. IsHealthy writes one record to the log.  It panics exactly when the
    probe returns, without error, a response whose ready field is unset;
    and it answers true only for a response received without error whose
    ready field is set to true. *)
Theorem IsHealthy_outcomes :
  forall (c : csi.client) (logger : Logger),
    fst (csi.IsHealthy c logger)
    = (logger ++ [(INFO, "calling NodeGetInfo rpc to check if the node service is healthy")])%list /\
    ((exists msg, snd (csi.IsHealthy c logger) = Panic msg) <-> startup.probeWithoutReady c) /\
    (forall e,
        snd (csi.IsHealthy c logger) = Return (true, e) ->
        e = None /\
        exists resp,
          csi.Probe (csi.IdentityClient_ c) = (Some resp, None) /\
          csi.Ready resp = Some {| csi.Value := true |}).
Proof.
  intros [close nc [info [[[[[ready]|]]|] [e|]]]] logger;
    unfold csi.IsHealthy, startup.probeWithoutReady; simpl;
    (split; [done|]); (split; [split; [intros [msg H]|intros (resp & H1 & H2)]|intros e' H]);
    simplify_eq/=; eauto.
Qed.

(** ** Owner-chain resolver and its callers, further *)

Lemma findTopOwner_enough_fuel fuel namespace ownerRefs s :
  acyclic namespace ownerRefs s ->
  size (replicasets s) < fuel ->
  is_Some (kubernetes.findTopOwner fuel namespace ownerRefs s).
Proof.
  intros Hacyclic Hfuel.
  destruct (kubernetes.findTopOwner fuel namespace ownerRefs s) as [r|] eqn:E;
    [by eexists|].
  apply findTopOwner_None_chain in E as [Hlen Hall].
  pose proof (distinct_keys_bound _ _ _ (Hacyclic _) Hall). lia.
Qed.

(** X3. A call of findTopOwner that returns has changed no stored object,
    and the requests it sent are the lookups of the ReplicaSets along the
    chain, in order and in the namespace of the pod: at most one per unit
    of fuel.  When it returns an error, the name and the kind are empty. *)
Theorem findTopOwner_read_only :
  forall (fuel : nat) (namespace : string) (ownerRefs : list OwnerReference)
         (s s' : Server) (name kind : string) (err : option error),
    kubernetes.findTopOwner fuel namespace ownerRefs s = Some (s', (name, kind, err)) ->
    same_objects s s' /\
    calls s'
    = (calls s ++ (GetReplicaSet namespace <$> ownerChain fuel namespace ownerRefs s))%list /\
    length (ownerChain fuel namespace ownerRefs s) <= fuel /\
    (err <> None -> name = "" /\ kind = "").
Proof.
  intros fuel namespace ownerRefs s s' name kind err H.
  pose proof (findTopOwner_calls _ _ _ _ _ _ H) as Hcalls.
  apply findTopOwner_result in H as (_ & Hobj & Herr).
  repeat split; try done; try (by apply Hobj); try (by apply Herr).
  clear. revert ownerRefs s. induction fuel as [|fuel IH]; intros ownerRefs s; [done|].
  destruct ownerRefs as [|[k n] rest]; simpl; [lia|].
  destruct (k =? "ReplicaSet"); simpl; [|lia].
  destruct (ReplicaSets_Get namespace n s) as [s1 [rs|e]]; simpl; [|lia].
  specialize (IH (ReplicaSet_OwnerReferences rs) s1). lia.
Qed.

Lemma findTopOwner_read_only_witness :
  exists s',
    kubernetes.findTopOwner 3 "default" (sample.ownedBy "ReplicaSet" "app1-5d4f")
      sample.app1Cluster = Some (s', ("app1", "Deployment", None)) /\
    (same_objects sample.app1Cluster s' /\
     calls s'
     = (calls sample.app1Cluster ++
        (GetReplicaSet "default" <$>
           ownerChain 3 "default" (sample.ownedBy "ReplicaSet" "app1-5d4f")
             sample.app1Cluster))%list /\
     length (ownerChain 3 "default" (sample.ownedBy "ReplicaSet" "app1-5d4f")
               sample.app1Cluster) <= 3 /\
     ((None : option error) <> None -> "app1" = "" /\ "Deployment" = "")).
Proof.
  eexists. split; [vm_compute; reflexivity|].
  apply (findTopOwner_read_only 3 "default" (sample.ownedBy "ReplicaSet" "app1-5d4f")
           sample.app1Cluster _ "app1" "Deployment" None).
  vm_compute. reflexivity.
Defined.

(** X4. RestartPod and ScaleOwner return: when the owner chain of the pod
    never revisits a ReplicaSet (or the pod cannot be fetched), any fuel
    above the number of ReplicaSets in the cluster gives a result. *)
Theorem owner_walk_callers_return :
  forall (controllers : Server -> Server) (c : kubernetes.client)
         (namespace podName : string) (replicaCount : Z) (s : Server),
    (forall pod,
        snd (Pods_Get namespace podName s) = Ok pod ->
        acyclic namespace (Pod_OwnerReferences pod) (fst (Pods_Get namespace podName s))) ->
    forall fuel,
      size (replicasets s) < fuel ->
      is_Some (kubernetes.RestartPod fuel namespace podName s) /\
      is_Some (kubernetes.ScaleOwner controllers fuel c namespace podName replicaCount s).
Proof.
  intros controllers c namespace podName replicaCount s Hacyclic fuel Hfuel.
  unfold kubernetes.RestartPod, kubernetes.ScaleOwner.
  destruct (Pods_Get namespace podName s) as [s1 [pod|e]] eqn:Eget; [|by split; eexists].
  apply Pods_Get_spec in Eget as ((_ & Hrs & _) & _).
  destruct (findTopOwner_enough_fuel fuel namespace (Pod_OwnerReferences pod) s1)
    as [[s2 [[ownerName kind] err]] ->]; [by apply Hacyclic|by rewrite Hrs|].
  split.
  - destruct err; [by eexists|]. destruct (ownerName =? ""); [by eexists|].
    destruct (Pods_Delete namespace podName s2) as [s3 [e|]]; by eexists.
  - destruct err; [by eexists|].
    destruct (kind =? "Deployment"); [by eexists|].
    destruct (kind =? "StatefulSet"); by eexists.
Qed.

Lemma owner_walk_callers_return_witness :
  (forall pod,
      snd (Pods_Get "default" "app1-5d4f-x2x" sample.app1Cluster) = Ok pod ->
      acyclic "default" (Pod_OwnerReferences pod)
        (fst (Pods_Get "default" "app1-5d4f-x2x" sample.app1Cluster))) /\
  (size (replicasets sample.app1Cluster) < 2 ->
   is_Some (kubernetes.RestartPod 2 "default" "app1-5d4f-x2x" sample.app1Cluster) /\
   is_Some (kubernetes.ScaleOwner sample.promptControllers 2 (kubernetes.NewClient "minikube")
              "default" "app1-5d4f-x2x" 0 sample.app1Cluster)).
Proof.
  assert (H : forall pod,
             snd (Pods_Get "default" "app1-5d4f-x2x" sample.app1Cluster) = Ok pod ->
             acyclic "default" (Pod_OwnerReferences pod)
               (fst (Pods_Get "default" "app1-5d4f-x2x" sample.app1Cluster))).
  { intros pod Hpod. vm_compute in Hpod. injection Hpod as <-.
    intros [|[|fuel]]; vm_compute; first [apply NoDup_nil_2 | apply NoDup_singleton]. }
  split; [exact H|].
  exact (owner_walk_callers_return sample.promptControllers (kubernetes.NewClient "minikube")
           "default" "app1-5d4f-x2x" 0 sample.app1Cluster H 2).
Defined.

(** ** Workload bounce operator, further *)

(** X5. ScaleOwner refuses every top owner that is neither a Deployment nor
    a StatefulSet (a DaemonSet, another kind, or no owner at all, whose kind
    is empty): it returns the unsupported-owner-kind error with that kind,
    having only read the pod and the ReplicaSets of the chain, and no
    stored object has changed. *)
Theorem ScaleOwner_unsupported_kind :
  forall (controllers : Server -> Server) (fuel : nat) (c : kubernetes.client)
         (namespace podName : string) (replicaCount : Z)
         (s s1 s2 : Server) (pod : Pod) (ownerName kind : string),
    Pods_Get namespace podName s = (s1, Ok pod) ->
    kubernetes.findTopOwner fuel namespace (Pod_OwnerReferences pod) s1
    = Some (s2, (ownerName, kind, None)) ->
    kind <> "Deployment" -> kind <> "StatefulSet" ->
    kubernetes.ScaleOwner controllers fuel c namespace podName replicaCount s
    = Some (s2, Some (errorString ("unsupported owner kind: " +:+ kind))) /\
    same_objects s s2 /\
    calls s2
    = (calls s ++ GetPod namespace podName ::
         (GetReplicaSet namespace <$>
            ownerChain fuel namespace (Pod_OwnerReferences pod) s1))%list.
Proof.
  intros controllers fuel c namespace podName replicaCount s s1 s2 pod ownerName kind
         Hget Howner Hd Hs.
  unfold kubernetes.ScaleOwner. rewrite Hget, Howner.
  destruct (String.eqb_spec kind "Deployment"); [done|].
  destruct (String.eqb_spec kind "StatefulSet"); [done|].
  split; [done|].
  apply Pods_Get_spec in Hget as (Hobj1 & Hcalls1 & _).
  pose proof (findTopOwner_calls _ _ _ _ _ _ Howner) as Hcalls2.
  apply findTopOwner_result in Howner as (_ & Hobj2 & _).
  split; [by eapply same_objects_trans|].
  by rewrite Hcalls2, Hcalls1, <- app_assoc.
Qed.

Lemma ScaleOwner_unsupported_kind_witness :
  exists s1 s2 pod,
    Pods_Get "kube-system" "node-agent-7xk" cases.agentCluster = (s1, Ok pod) /\
    kubernetes.findTopOwner 3 "kube-system" (Pod_OwnerReferences pod) s1
    = Some (s2, ("node-agent", "DaemonSet", None)) /\
    (kubernetes.ScaleOwner sample.promptControllers 3 (kubernetes.NewClient "minikube")
       "kube-system" "node-agent-7xk" 0 cases.agentCluster
     = Some (s2, Some (errorString ("unsupported owner kind: " +:+ "DaemonSet"))) /\
     same_objects cases.agentCluster s2 /\
     calls s2
     = (calls cases.agentCluster ++ GetPod "kube-system" "node-agent-7xk" ::
          (GetReplicaSet "kube-system" <$>
             ownerChain 3 "kube-system" (Pod_OwnerReferences pod) s1))%list).
Proof.
  eexists _, _, _. split; [vm_compute; reflexivity|]. split; [vm_compute; reflexivity|].
  apply (ScaleOwner_unsupported_kind sample.promptControllers 3 (kubernetes.NewClient "minikube")
           "kube-system" "node-agent-7xk" 0 cases.agentCluster _ _ _ "node-agent" "DaemonSet");
    [vm_compute; reflexivity|vm_compute; reflexivity|done|done].
Defined.

Lemma RetryOnConflict_always_fails fn :
  (forall s, snd (fn s) <> None) ->
  forall steps lastErr s,
    (steps = 0 -> lastErr <> None) ->
    snd (RetryOnConflict_from lastErr steps fn s) <> None.
Proof.
  intros Hfn. induction steps as [|steps IH]; intros lastErr s Hlast; simpl; [by apply Hlast|].
  specialize (Hfn s). destruct (fn s) as [s1 [e|]]; simpl in *; [|done].
  destruct (IsConflict e); [by apply IH|done].
Qed.

(** X6. A bounce of a StatefulSet never succeeds: scaleStateFulSet with
    target 0 returns an error on every cluster, whatever the controllers
    and the API server do, because its wait asks checkReplicas for the kind
    StatefulSets and fails at the first poll. *)
Theorem scaleStateFulSet_bounce_always_fails :
  forall (controllers : Server -> Server) (c : kubernetes.client)
         (name namespace : string) (s : Server),
    snd (kubernetes.scaleStateFulSet controllers c name namespace 0 s) <> None.
Proof.
  intros controllers c name namespace s.
  apply RetryOnConflict_always_fails; [|done].
  clear s. intros s. unfold kubernetes.scaleStateFulSet_func.
  destruct (StatefulSets_Get namespace name s) as [s1 [sts|e]]; [|done]. simpl.
  destruct (StatefulSets_Update namespace _ s1) as [s2 [d2|e]]; [|done]. simpl.
  rewrite waitForReplicasToBeZero_StatefulSets.
  destruct (StatefulSets_Update namespace _ s2) as [s3 [d3|e]]; done.
Qed.

Lemma Deployments_Get_spec namespace name s s' r :
  Deployments_Get namespace name s = (s', r) ->
  same_objects s s' /\ calls s' = (calls s ++ [GetDeployment namespace name])%list /\
  faults s' = tail (faults s) /\
  (forall d, r = Ok d -> deployments s !! (namespace, name) = Some d).
Proof. apply fetch_spec. by intros ?? (?&?&?&?). Qed.

(** X7. When the wait for a Deployment returns without error, the last
    thing it read is that Deployment with zero observed replicas: the
    Deployment exists in the final cluster and its status shows 0. *)
Theorem wait_success_observed_zero :
  forall (controllers : Server -> Server) (c : kubernetes.client)
         (namespace name : string) (s s' : Server),
    kubernetes.waitForReplicasToBeZero controllers c namespace name "Deployment" s
    = (s', None) ->
    exists d, deployments s' !! (namespace, name) = Some d /\
              Deployment_Status_Replicas d = 0%Z.
Proof.
  intros controllers c namespace name s s'. unfold kubernetes.waitForReplicasToBeZero.
  generalize (kubernetes.pollAttempts c). intros attempts. revert s.
  induction attempts as [|attempts IH]; intros s; simpl; [done|].
  unfold kubernetes.checkReplicas. simpl.
  destruct (Deployments_Get namespace name s) as [s1 [d|e]] eqn:E; [|done].
  apply Deployments_Get_spec in E as ((_ & _ & Hd & _) & _ & _ & Hok).
  destruct (Z.eqb_spec (Deployment_Status_Replicas d) 0) as [Hz|Hnz].
  - intros [= <-]. exists d. split; [|done]. rewrite Hd. by apply Hok.
  - apply IH.
Qed.

Lemma wait_success_observed_zero_witness :
  exists s',
    kubernetes.waitForReplicasToBeZero sample.promptControllers
      (kubernetes.NewClient "minikube") "default" "app1" "Deployment" cases.drainingCluster
    = (s', None) /\
    exists d, deployments s' !! ("default", "app1") = Some d /\
              Deployment_Status_Replicas d = 0%Z.
Proof.
  eexists. split; [vm_compute; reflexivity|].
  apply (wait_success_observed_zero sample.promptControllers (kubernetes.NewClient "minikube")
           "default" "app1" cases.drainingCluster).
  vm_compute. reflexivity.
Defined.

(** X8. When the Deployment is there, no request fails, and the
    controllers never bring its observed replicas to 0, the wait ends with
    the deadline error of the poll. *)
Theorem wait_times_out :
  forall (controllers : Server -> Server) (c : kubernetes.client)
         (namespace name : string) (s : Server),
    (forall s, cases.busy namespace name s -> cases.busy namespace name (controllers s)) ->
    cases.busy namespace name s ->
    snd (kubernetes.waitForReplicasToBeZero controllers c namespace name "Deployment" s)
    = Some DeadlineExceeded.
Proof.
  intros controllers c namespace name s Hctl. unfold kubernetes.waitForReplicasToBeZero.
  generalize (kubernetes.pollAttempts c). intros attempts. revert s.
  induction attempts as [|attempts IH]; intros s Hbusy; simpl; [done|].
  destruct Hbusy as (Hf & d & Hd & Hnz).
  unfold kubernetes.checkReplicas, Deployments_Get, fetch, receive. simpl.
  rewrite Hf, Hd. simpl.
  destruct (Z.eqb_spec (Deployment_Status_Replicas d) 0) as [Hz|_]; [done|].
  apply IH, Hctl. split; [done|]. by exists d.
Qed.

Lemma wait_times_out_witness :
  (forall s, cases.busy "default" "app1" s ->
             cases.busy "default" "app1" (sample.stuckControllers s)) /\
  cases.busy "default" "app1" sample.app1Cluster /\
  snd (kubernetes.waitForReplicasToBeZero sample.stuckControllers
         (kubernetes.NewClient "minikube") "default" "app1" "Deployment" sample.app1Cluster)
  = Some DeadlineExceeded.
Proof.
  assert (H1 : forall s, cases.busy "default" "app1" s ->
                         cases.busy "default" "app1" (sample.stuckControllers s))
    by (intros s H; exact H).
  assert (H2 : cases.busy "default" "app1" sample.app1Cluster).
  { split; [reflexivity|]. eexists. split; [vm_compute; reflexivity|]. simpl. lia. }
  split; [exact H1|]. split; [exact H2|].
  exact (wait_times_out sample.stuckControllers (kubernetes.NewClient "minikube")
           "default" "app1" sample.app1Cluster H1 H2).
Defined.

(** X9. With a target other than 0, scaleDeployment's function does not
    bounce: after reading the Deployment it sends one update that sets the
    desired replicas to the target, and never polls.  A refused update is
    reported as a failure to revert back the replicas. *)
Theorem scale_to_count_is_one_update :
  forall (controllers : Server -> Server) (c : kubernetes.client)
         (name namespace : string) (count : Z) (s s1 : Server) (deployment : Deployment),
    count <> 0%Z ->
    Deployments_Get namespace name s = (s1, Ok deployment) ->
    let update :=
      Deployments_Update namespace
        (kubernetes.Deployment_with_Replicas deployment (Some count)) s1 in
    kubernetes.scaleDeployment_func controllers c name namespace count s
    = (fst update,
       match snd update with
       | Ok _ => None
       | Err e =>
           Some (wrapError ("failed to revert back the replicas in deployment: " +:+ Error e) e)
       end) /\
    calls (fst update)
    = (calls s ++ [GetDeployment namespace name;
                   UpdateDeployment namespace (Deployment_Name deployment) (Some count)])%list.
Proof.
  intros controllers c name namespace count s s1 deployment Hcount Hget. simpl.
  unfold kubernetes.scaleDeployment_func. rewrite Hget.
  destruct (Z.eqb_spec count 0) as [|_]; [done|]. simpl.
  unfold kubernetes.Deployment_with_Replicas at 1. simpl.
  fold (kubernetes.Deployment_with_Replicas deployment (Some count)).
  destruct (Deployments_Update namespace _ s1) as [s2 [d2|e]] eqn:E; simpl;
    (split; [done|]);
    apply Deployments_Update_calls in E; rewrite E;
    apply Deployments_Get_spec in Hget as (_ & -> & _); by rewrite <- app_assoc.
Qed.

Lemma scale_to_count_is_one_update_witness :
  exists s1 deployment,
    Deployments_Get "default" "app1" sample.app1Cluster = (s1, Ok deployment) /\
    let update :=
      Deployments_Update "default"
        (kubernetes.Deployment_with_Replicas deployment (Some 5%Z)) s1 in
    kubernetes.scaleDeployment_func sample.stuckControllers (kubernetes.NewClient "minikube")
      "app1" "default" 5 sample.app1Cluster
    = (fst update,
       match snd update with
       | Ok _ => None
       | Err e =>
           Some (wrapError ("failed to revert back the replicas in deployment: " +:+ Error e) e)
       end) /\
    calls (fst update)
    = (calls sample.app1Cluster ++
       [GetDeployment "default" "app1";
        UpdateDeployment "default" (Deployment_Name deployment) (Some 5%Z)])%list.
Proof.
  eexists _, _. split; [vm_compute; reflexivity|].
  apply (scale_to_count_is_one_update sample.stuckControllers (kubernetes.NewClient "minikube")
           "app1" "default" 5 sample.app1Cluster); [lia|vm_compute; reflexivity].
Defined.

Lemma Deployments_Update_Err namespace d s s' e :
  Deployments_Update namespace d s = (s', Err e) -> same_objects s s'.
Proof.
  unfold Deployments_Update. destruct (receive _ s) as [s1 fault] eqn:E.
  pose proof (receive_spec (UpdateDeployment namespace (Deployment_Name d)
                              (Deployment_Spec_Replicas d)) s) as (Hobj & _).
  rewrite E in Hobj. simpl in Hobj.
  destruct fault; [by intros [= <- _]|].
  destruct (deployments s1 !! _); [done|by intros [= <- _]].
Qed.

(** X10. A bounce that fails before the scale-down is accepted leaves the
    cluster as it was: when the first read, or the update to 0, fails with
    an error that is not a conflict, scaleDeployment returns that very
    error, unwrapped, and no stored object has changed. *)
Theorem bounce_fails_early_unchanged :
  forall (controllers : Server -> Server) (c : kubernetes.client)
         (name namespace : string) (s s' : Server) (e : error),
    IsConflict e = false ->
    (Deployments_Get namespace name s = (s', Err e) \/
     exists s1 deployment,
       Deployments_Get namespace name s = (s1, Ok deployment) /\
       Deployments_Update namespace
         (kubernetes.Deployment_with_Replicas deployment (Some 0%Z)) s1 = (s', Err e)) ->
    kubernetes.scaleDeployment controllers c name namespace 0 s = (s', Some e) /\
    same_objects s s'.
Proof.
  intros controllers c name namespace s s' e Hconflict H.
  unfold kubernetes.scaleDeployment, RetryOnConflict, DefaultRetry. simpl.
  unfold kubernetes.scaleDeployment_func.
  destruct H as [Hget|(s1 & deployment & Hget & Hupdate)]; rewrite Hget; simpl.
  - rewrite Hconflict. split; [done|]. by apply Deployments_Get_spec in Hget as (? & _).
  - unfold kubernetes.int32Ptr. rewrite Hupdate. simpl. rewrite Hconflict. split; [done|].
    apply Deployments_Get_spec in Hget as (? & _). apply Deployments_Update_Err in Hupdate.
    by eapply same_objects_trans.
Qed.

Lemma bounce_fails_early_unchanged_witness :
  exists s',
    Deployments_Get "default" "app1" sample.emptyServer
    = (s', Err (NewNotFound "deployments.apps" "app1")) /\
    kubernetes.scaleDeployment sample.promptControllers (kubernetes.NewClient "minikube")
      "app1" "default" 0 sample.emptyServer
    = (s', Some (NewNotFound "deployments.apps" "app1")) /\
    same_objects sample.emptyServer s'.
Proof.
  eexists. split; [vm_compute; reflexivity|].
  apply bounce_fails_early_unchanged; [reflexivity|].
  left. vm_compute. reflexivity.
Defined.

Lemma sentOnly_refl P s : cases.sentOnly P s s.
Proof. exists []. by rewrite app_nil_r. Qed.

Lemma sentOnly_trans P s1 s2 s3 :
  cases.sentOnly P s1 s2 -> cases.sentOnly P s2 s3 -> cases.sentOnly P s1 s3.
Proof.
  intros (l1 & H1 & F1) (l2 & H2 & F2). exists (l1 ++ l2)%list.
  split; [by rewrite H2, H1, <- app_assoc|by apply Forall_app].
Qed.

Lemma sentOnly_one (P : Call -> Prop) s s' c :
  calls s' = (calls s ++ [c])%list -> P c -> cases.sentOnly P s s'.
Proof. intros H Hc. exists [c]. split; [done|by constructor]. Qed.

Lemma Deployments_Get_sentOnly namespace name s :
  cases.sentOnly (cases.deploymentRequest namespace name) s
    (fst (Deployments_Get namespace name s)).
Proof.
  destruct (Deployments_Get namespace name s) as [s1 r] eqn:E.
  apply Deployments_Get_spec in E as (_ & Hcalls & _).
  eapply sentOnly_one; [exact Hcalls|by left].
Qed.

Lemma Deployments_Update_sentOnly namespace name d s :
  cases.sentOnly (cases.deploymentRequest namespace name) s
    (fst (Deployments_Update namespace d s)).
Proof.
  destruct (Deployments_Update namespace d s) as [s1 r] eqn:E.
  apply Deployments_Update_calls in E.
  eapply sentOnly_one; [exact E|right; by eexists _, _].
Qed.

Lemma waitForReplicasToBeZero_sentOnly controllers c namespace name s :
  (forall s, calls (controllers s) = calls s) ->
  cases.sentOnly (cases.deploymentRequest namespace name) s
    (fst (kubernetes.waitForReplicasToBeZero controllers c namespace name "Deployment" s)).
Proof.
  intros Hctl. unfold kubernetes.waitForReplicasToBeZero.
  generalize (kubernetes.pollAttempts c). intros attempts. revert s.
  induction attempts as [|attempts IH]; intros s; simpl; [apply sentOnly_refl|].
  unfold kubernetes.checkReplicas. simpl.
  pose proof (Deployments_Get_sentOnly namespace name s) as Hget.
  destruct (Deployments_Get namespace name s) as [s1 [d|e]]; simpl in *; [|done].
  destruct (Deployment_Status_Replicas d =? 0)%Z; [done|].
  eapply sentOnly_trans; [exact Hget|].
  specialize (IH (controllers s1)). destruct IH as (l & Hl & Fl).
  exists l. by rewrite <- (Hctl s1).
Qed.

Lemma scaleDeployment_func_sentOnly controllers c name namespace count s :
  (forall s, calls (controllers s) = calls s) ->
  cases.sentOnly (cases.deploymentRequest namespace name) s
    (fst (kubernetes.scaleDeployment_func controllers c name namespace count s)).
Proof.
  intros Hctl. unfold kubernetes.scaleDeployment_func.
  pose proof (Deployments_Get_sentOnly namespace name s) as Hget.
  destruct (Deployments_Get namespace name s) as [s1 [d|e]]; simpl in Hget; [|done].
  eapply sentOnly_trans; [exact Hget|].
  assert (Hupd : forall d' s0,
             cases.sentOnly (cases.deploymentRequest namespace name) s0
               (fst (let '(s2, r) := Deployments_Update namespace d' s0 in
                     match err_of r with
                     | Some _ =>
                         (s2, Some (Errorf "failed to revert back the replicas in deployment: "
                                      (err_of r)))
                     | None => (s2, None)
                     end))).
  { intros d' s0. pose proof (Deployments_Update_sentOnly namespace name d' s0) as H.
    destruct (Deployments_Update namespace d' s0) as [s2 [?|?]]; done. }
  destruct (Z.eqb_spec count 0) as [->|_]; simpl; [|apply Hupd].
  pose proof (Deployments_Update_sentOnly namespace name
                (kubernetes.Deployment_with_Replicas d (kubernetes.int32Ptr 0)) s1) as H1.
  destruct (Deployments_Update namespace _ s1) as [s2 [d2|e]]; simpl in *; [|done].
  eapply sentOnly_trans; [exact H1|].
  pose proof (waitForReplicasToBeZero_sentOnly controllers c namespace name s2 Hctl) as H2.
  destruct (kubernetes.waitForReplicasToBeZero controllers c namespace name "Deployment" s2)
    as [s3 [quiesce|]]; simpl in H2; (eapply sentOnly_trans; [exact H2|]).
  - pose proof (Deployments_Update_sentOnly namespace name
                  (kubernetes.Deployment_with_Replicas
                     (kubernetes.Deployment_with_Replicas d (kubernetes.int32Ptr 0))
                     (Deployment_Spec_Replicas d)) s3) as H3.
    destruct (Deployments_Update namespace _ s3) as [s4 [d4|e]]; done.
  - apply Hupd.
Qed.

(** X11. A Deployment bounce or scale sends nothing but reads of that
    Deployment and updates of a Deployment in its namespace, whatever the
    target, the faults and the retries: it never deletes a pod and never
    sends a request about a StatefulSet, a ReplicaSet, a claim or a
    volume.  (The controllers are assumed not to write into the log of the
    requests of the program.) *)
Theorem scaleDeployment_sends_deployment_requests_only :
  forall (controllers : Server -> Server) (c : kubernetes.client)
         (name namespace : string) (count : Z) (s : Server),
    (forall s, calls (controllers s) = calls s) ->
    cases.sentOnly (cases.deploymentRequest namespace name) s
      (fst (kubernetes.scaleDeployment controllers c name namespace count s)).
Proof.
  intros controllers c name namespace count s Hctl.
  unfold kubernetes.scaleDeployment, RetryOnConflict.
  generalize DefaultRetry (@None error). intros steps. revert s.
  induction steps as [|steps IH]; intros s lastErr; simpl; [apply sentOnly_refl|].
  pose proof (scaleDeployment_func_sentOnly controllers c name namespace count s Hctl) as H.
  destruct (kubernetes.scaleDeployment_func controllers c name namespace count s)
    as [s1 [e|]]; simpl in H; [|done].
  destruct (IsConflict e); [|done]. eapply sentOnly_trans; [exact H|apply IH].
Qed.

Lemma scaleDeployment_sends_deployment_requests_only_witness :
  (forall s, calls (sample.promptControllers s) = calls s) /\
  cases.sentOnly (cases.deploymentRequest "default" "app1") sample.app1Cluster
    (fst (kubernetes.scaleDeployment sample.promptControllers (kubernetes.NewClient "minikube")
            "app1" "default" 0 sample.app1Cluster)).
Proof.
  assert (H : forall s, calls (sample.promptControllers s) = calls s) by reflexivity.
  split; [exact H|].
  exact (scaleDeployment_sends_deployment_requests_only sample.promptControllers
           (kubernetes.NewClient "minikube") "app1" "default" 0 sample.app1Cluster H).
Defined.

(** X12. A bounce that returns without error has ended with an update that
    writes back the desired count read at the start of its last execution
    under RetryOnConflict: [s0] is the cluster as that execution found it. *)
Theorem bounce_success_restores_last_read :
  forall (controllers : Server -> Server) (c : kubernetes.client)
         (name namespace : string) (s s' : Server),
    kubernetes.scaleDeployment controllers c name namespace 0 s = (s', None) ->
    exists s0 s1 deployment,
      kubernetes.scaleDeployment_func controllers c name namespace 0 s0 = (s', None) /\
      Deployments_Get namespace name s0 = (s1, Ok deployment) /\
      last (calls s')
      = Some (UpdateDeployment namespace (Deployment_Name deployment)
                (Deployment_Spec_Replicas deployment)).
Proof.
  intros controllers c name namespace s s'.
  unfold kubernetes.scaleDeployment, RetryOnConflict, DefaultRetry.
  assert (H : forall steps lastErr s,
             (steps = 0 -> lastErr <> None) ->
             RetryOnConflict_from lastErr steps
               (kubernetes.scaleDeployment_func controllers c name namespace 0) s = (s', None) ->
             exists s0,
               kubernetes.scaleDeployment_func controllers c name namespace 0 s0 = (s', None)).
  { induction steps as [|steps IH]; intros lastErr s0 Hlast; simpl.
    - intros [= _ ->]. by destruct Hlast.
    - destruct (kubernetes.scaleDeployment_func controllers c name namespace 0 s0)
        as [s1 [e|]] eqn:E.
      + destruct (IsConflict e); [|done]. by apply IH.
      + intros [= <-]. by exists s0. }
  intros Hrun. apply H in Hrun as [s0 Hs0]; [|done].
  destruct (scaleDeployment_func_restores_what_it_read _ _ _ _ _ _ Hs0)
    as (s1 & deployment & Hget & Hlast).
  by exists s0, s1, deployment.
Qed.

Lemma bounce_success_restores_last_read_witness :
  let s := sample.with_faults sample.app1Cluster
             [None; None; None; None; Some (NewConflict "deployments.apps" "app1")] in
  exists s' s0 s1 deployment,
    kubernetes.scaleDeployment sample.promptControllers (kubernetes.NewClient "minikube")
      "app1" "default" 0 s = (s', None) /\
    kubernetes.scaleDeployment_func sample.promptControllers (kubernetes.NewClient "minikube")
      "app1" "default" 0 s0 = (s', None) /\
    Deployments_Get "default" "app1" s0 = (s1, Ok deployment) /\
    last (calls s')
    = Some (UpdateDeployment "default" (Deployment_Name deployment)
              (Deployment_Spec_Replicas deployment)).
Proof.
  intros s. eexists.
  assert (H : kubernetes.scaleDeployment sample.promptControllers
                (kubernetes.NewClient "minikube") "app1" "default" 0 s = (_, None))
    by (vm_compute; reflexivity).
  destruct (bounce_success_restores_last_read _ _ _ _ _ _ H)
    as (s0 & s1 & deployment & H0 & Hget & Hlast).
  exists s0, s1, deployment. split; [exact H|]. split; [exact H0|]. split; [exact Hget|exact Hlast].
Defined.

(** ** Pod restart operator, further *)

Lemma Pods_Delete_objects namespace name s s' err :
  Pods_Delete namespace name s = (s', err) ->
  replicasets s' = replicasets s /\ deployments s' = deployments s /\
  statefulsets s' = statefulsets s /\ pvcs s' = pvcs s /\ pvs s' = pvs s /\
  match err with
  | None => pods s' = delete (namespace, name) (pods s) /\ is_Some (pods s !! (namespace, name))
  | Some _ => pods s' = pods s
  end.
Proof.
  unfold Pods_Delete. destruct (receive _ s) as [s1 fault] eqn:E.
  pose proof (receive_spec (DeletePod namespace name) s) as ((Hp & ? & ? & ? & ? & ?) & _).
  rewrite E in *. simpl in *.
  destruct fault as [e|]; [by intros [= <- <-]|].
  destruct (pods s1 !! (namespace, name)) eqn:El; intros [= <- <-]; simpl;
    repeat split; try done; rewrite <- ?Hp; done.
Qed.

(** X13. What RestartPod does to the cluster: when it returns an error, no
    stored object has changed; when it returns without error, the pod
    existed and is gone, and nothing else has changed. *)
Theorem RestartPod_effect :
  forall (fuel : nat) (namespace podName : string) (s s' : Server) (err : option error),
    kubernetes.RestartPod fuel namespace podName s = Some (s', err) ->
    match err with
    | Some _ => same_objects s s'
    | None =>
        is_Some (pods s !! (namespace, podName)) /\
        pods s' = delete (namespace, podName) (pods s) /\
        replicasets s' = replicasets s /\ deployments s' = deployments s /\
        statefulsets s' = statefulsets s /\ pvcs s' = pvcs s /\ pvs s' = pvs s
    end.
Proof.
  intros fuel namespace podName s s' err. unfold kubernetes.RestartPod.
  destruct (Pods_Get namespace podName s) as [s1 [pod|e]] eqn:Eget;
    apply Pods_Get_spec in Eget as (Hobj1 & _); [|by intros [= <- <-]].
  destruct (kubernetes.findTopOwner fuel namespace (Pod_OwnerReferences pod) s1)
    as [[s2 [[ownerName kind] lookup]]|] eqn:Eowner; [|done].
  apply findTopOwner_result in Eowner as (_ & Hobj2 & _).
  assert (Hobj : same_objects s s2) by (by eapply same_objects_trans).
  destruct lookup; [by intros [= <- <-]|].
  destruct (ownerName =? ""); [by intros [= <- <-]|].
  destruct (Pods_Delete namespace podName s2) as [s3 deletion] eqn:Edel.
  apply Pods_Delete_objects in Edel as (H1 & H2 & H3 & H4 & H5 & H6).
  destruct Hobj as (Hp & Hr & Hd & Hs & Hc & Hv).
  destruct deletion; intros [= <- <-].
  - repeat split; congruence.
  - destruct H6 as [H6 H7]. rewrite Hp in H6, H7. repeat split; congruence.
Qed.

Lemma RestartPod_effect_witness :
  exists s',
    kubernetes.RestartPod 3 "default" "app1-5d4f-x2x" sample.app1Cluster = Some (s', None) /\
    (is_Some (pods sample.app1Cluster !! ("default", "app1-5d4f-x2x")) /\
     pods s' = delete ("default", "app1-5d4f-x2x") (pods sample.app1Cluster) /\
     replicasets s' = replicasets sample.app1Cluster /\
     deployments s' = deployments sample.app1Cluster /\
     statefulsets s' = statefulsets sample.app1Cluster /\
     pvcs s' = pvcs sample.app1Cluster /\ pvs s' = pvs sample.app1Cluster).
Proof.
  eexists. split; [vm_compute; reflexivity|].
  apply (RestartPod_effect 3 "default" "app1-5d4f-x2x" sample.app1Cluster _ None).
  vm_compute. reflexivity.
Defined.

(** ** Volume driver resolver, further *)

Lemma PersistentVolumes_Get_spec name s s' r :
  PersistentVolumes_Get name s = (s', r) ->
  same_objects s s' /\ calls s' = (calls s ++ [GetPersistentVolume name])%list.
Proof.
  intros H. eapply (fetch_spec _ pvs) in H as (? & ? & _); [done|].
  by intros ?? (?&?&?&?&?&?).
Qed.

Lemma GetDriverName_requests :
  forall (podUUID podName pvcName namespace : string) (s : Server),
    let s' := fst (volume.GetDriverName podUUID podName pvcName namespace s) in
    same_objects s s' /\
    (calls s' = (calls s ++ [GetPersistentVolumeClaim namespace pvcName])%list \/
     exists pvc,
       pvcs s !! (namespace, pvcName) = Some pvc /\
       calls s' = (calls s ++ [GetPersistentVolumeClaim namespace pvcName;
                               GetPersistentVolume (Spec_VolumeName pvc)])%list).
Proof.
  intros podUUID podName pvcName namespace s. simpl.
  unfold volume.GetDriverName, volume.getPVC, kubernetes.GetPVC, kubernetes.GetPV.
  destruct (PersistentVolumeClaims_Get namespace pvcName s) as [s1 [pvc|e]] eqn:E;
    apply PersistentVolumeClaims_Get_spec in E as (Hobj & Hcalls & _ & Hpvc);
    [|split; [done|by left]].
  assert (Hpv : forall s2 r,
             PersistentVolumes_Get (Spec_VolumeName pvc) s1 = (s2, r) ->
             same_objects s s2 /\
             (calls s2 = (calls s ++ [GetPersistentVolumeClaim namespace pvcName])%list \/
              exists pvc,
                pvcs s !! (namespace, pvcName) = Some pvc /\
                calls s2 = (calls s ++ [GetPersistentVolumeClaim namespace pvcName;
                                        GetPersistentVolume (Spec_VolumeName pvc)])%list)).
  { intros s2 r E2. apply PersistentVolumes_Get_spec in E2 as (Hobj2 & Hcalls2).
    split; [by eapply same_objects_trans|]. right. exists pvc.
    split; [by apply Hpvc|]. by rewrite Hcalls2, Hcalls, <- app_assoc. }
  destruct (Annotations pvc) as [annotations|].
  - destruct (negb _); [split; [done|by left]|].
    destruct (negb _); [split; [done|by left]|].
    destruct (PersistentVolumes_Get (Spec_VolumeName pvc) s1) as [s2 [pv|e]] eqn:E2;
      [destruct (Spec_CSI pv)|]; by eapply Hpv.
  - destruct (PersistentVolumes_Get (Spec_VolumeName pvc) s1) as [s2 [pv|e]] eqn:E2;
      [destruct (Spec_CSI pv)|]; by eapply Hpv.
Qed.

(** X14. The resolver only reads: it changes no stored object, and it sends
    the claim fetch alone, or the claim fetch followed by one fetch of the
    volume the claim is bound to. *)
Theorem GetDriverName_read_only :
  forall (podUUID podName pvcName namespace : string) (s : Server),
    let s' := fst (volume.GetDriverName podUUID podName pvcName namespace s) in
    same_objects s s' /\
    (calls s' = (calls s ++ [GetPersistentVolumeClaim namespace pvcName])%list \/
     exists pvc,
       pvcs s !! (namespace, pvcName) = Some pvc /\
       calls s' = (calls s ++ [GetPersistentVolumeClaim namespace pvcName;
                               GetPersistentVolume (Spec_VolumeName pvc)])%list).
Proof. exact GetDriverName_requests. Qed.

(** ** Remediation loop, further *)

Lemma volumeBody_without_volume_condition controllers fuel kubeClient
      (drivers : gmap string csi.Client) podName podUUID v s logger :
  (forall name client l,
      drivers !! name = Some client ->
      snd (csi.Client_NodeSupportsVolumeCondition client l) <> (true, None)) ->
  exists s' logger',
    remediation.volumeBody controllers fuel kubeClient drivers podName podUUID v (s, logger)
    = Some (s', logger') /\ same_objects s s'.
Proof.
  intros Hdrivers. unfold remediation.volumeBody.
  destruct (remediation.PVCRef v) as [pvcRef|];
    [|eexists _, _; split; [done|apply same_objects_refl]].
  pose proof (GetDriverName_requests podUUID podName (remediation.PVC_Name pvcRef)
                (remediation.PVC_Namespace pvcRef) s) as [Hobj _].
  destruct (volume.GetDriverName _ _ _ _ s) as [s1 [driver [e|]]]; simpl in Hobj;
    [by eexists _, _|].
  destruct (drivers !! driver) as [client|] eqn:Hclient; [|by eexists _, _].
  specialize (Hdrivers _ _ logger Hclient).
  destruct (csi.Client_NodeSupportsVolumeCondition client logger) as [l1 [ok [e|]]];
    simpl in *; [by eexists _, _|].
  destruct ok; simpl; [by destruct Hdrivers|by eexists _, _].
Qed.

(** X15. The loop never acts on behalf of a driver that does not report
    volume-condition support: when no driver of the registry answers that
    query with true and no error, the whole pass returns, for any fuel, and
    no stored object of the cluster has changed. *)
Theorem remediate_without_volume_condition :
  forall (controllers : Server -> Server) (fuel : nat) (kubeClient : kubernetes.client)
         (drivers : gmap string csi.Client) (metrics : remediation.Summary)
         (s : Server) (logger : Logger),
    (forall name client l,
        drivers !! name = Some client ->
        snd (csi.Client_NodeSupportsVolumeCondition client l) <> (true, None)) ->
    exists s' logger',
      remediation.remediate controllers fuel kubeClient drivers metrics (s, logger)
      = Some (s', logger') /\ same_objects s s'.
Proof.
  intros controllers fuel kubeClient drivers [ps] s logger Hdrivers.
  unfold remediation.remediate. simpl.
  assert (Hvolumes : forall podName podUUID vs s logger,
             exists s' logger',
               remediation.volumeLoop controllers fuel kubeClient drivers podName podUUID vs
                 (s, logger) = Some (s', logger') /\ same_objects s s').
  { intros podName podUUID vs. induction vs as [|v vs IH]; intros s0 l0;
      cbn [remediation.volumeLoop].
    - eexists _, _. split; [done|apply same_objects_refl].
    - destruct (volumeBody_without_volume_condition controllers fuel kubeClient drivers
                  podName podUUID v s0 l0 Hdrivers) as (s1 & l1 & -> & H1).
      destruct (IH s1 l1) as (s2 & l2 & -> & H2).
      eexists _, _. split; [done|by eapply same_objects_trans]. }
  revert s logger. induction ps as [|p ps IH]; intros s logger; cbn [remediation.podLoop].
  - eexists _, _. split; [done|apply same_objects_refl].
  - destruct (Hvolumes (remediation.Pod_Name (remediation.PodRef p))
                (remediation.Pod_UID (remediation.PodRef p))
                (remediation.VolumeStats_ p) s logger) as (s1 & l1 & -> & H1).
    destruct (IH s1 l1) as (s2 & l2 & -> & H2).
    eexists _, _. split; [done|by eapply same_objects_trans].
Qed.

Lemma remediate_without_volume_condition_witness :
  (forall name client l,
      sample.registry (sample.driverWith []) !! name = Some client ->
      snd (csi.Client_NodeSupportsVolumeCondition client l) <> (true, None)) /\
  exists s' logger',
    remediation.remediate sample.promptControllers 0 (kubernetes.NewClient "minikube")
      (sample.registry (sample.driverWith [])) cases.scenarioMetrics
      (sample.scenarioCluster, [])
    = Some (s', logger') /\ same_objects sample.scenarioCluster s'.
Proof.
  assert (H : forall name client l,
             sample.registry (sample.driverWith []) !! name = Some client ->
             snd (csi.Client_NodeSupportsVolumeCondition client l) <> (true, None)).
  { intros name client l Hl. unfold sample.registry in Hl.
    apply lookup_singleton_Some in Hl as [_ <-]. discriminate. }
  split; [exact H|].
  exact (remediate_without_volume_condition sample.promptControllers 0
           (kubernetes.NewClient "minikube") (sample.registry (sample.driverWith []))
           cases.scenarioMetrics sample.scenarioCluster [] H).
Defined.

(** X16. Volumes without a claim reference are passed over in silence: on
    node metrics in which no volume has one (in particular on metrics
    without pods or without volumes) the pass returns at once, sends no
    request and logs nothing. *)
Theorem remediate_skips_claimless_volumes :
  forall (controllers : Server -> Server) (fuel : nat) (kubeClient : kubernetes.client)
         (drivers : gmap string csi.Client) (metrics : remediation.Summary)
         (st : Server * Logger),
    (forall p v,
        p ∈ remediation.Pods metrics -> v ∈ remediation.VolumeStats_ p ->
        remediation.PVCRef v = None) ->
    remediation.remediate controllers fuel kubeClient drivers metrics st = Some st.
Proof.
  intros controllers fuel kubeClient drivers [ps] st. unfold remediation.remediate. simpl.
  assert (Hvolumes : forall podName podUUID vs st,
             (forall v, v ∈ vs -> remediation.PVCRef v = None) ->
             remediation.volumeLoop controllers fuel kubeClient drivers podName podUUID vs st
             = Some st).
  { intros podName podUUID vs. induction vs as [|v vs IH]; intros [s0 l0] Hvs;
      cbn [remediation.volumeLoop remediation.volumeBody]; [done|].
    rewrite (Hvs v) by (by left). apply IH. intros v' Hv'. apply Hvs. by right. }
  induction ps as [|p ps IH]; intros Hps; cbn [remediation.podLoop]; [done|].
  rewrite Hvolumes by (intros v Hv; apply (Hps p v); [by left|done]).
  apply IH. intros p' v Hp' Hv. apply (Hps p' v); [by right|done].
Qed.

Lemma remediate_skips_claimless_volumes_witness :
  (forall p v,
      p ∈ remediation.Pods cases.claimlessMetrics -> v ∈ remediation.VolumeStats_ p ->
      remediation.PVCRef v = None) /\
  remediation.remediate sample.promptControllers 0 (kubernetes.NewClient "minikube")
    (sample.registry sample.stagingDriver) cases.claimlessMetrics (sample.scenarioCluster, [])
  = Some (sample.scenarioCluster, []).
Proof.
  assert (H : forall p v,
             p ∈ remediation.Pods cases.claimlessMetrics -> v ∈ remediation.VolumeStats_ p ->
             remediation.PVCRef v = None).
  { intros p v Hp Hv. simpl in Hp. apply list_elem_of_singleton in Hp as ->.
    simpl in Hv. by apply list_elem_of_singleton in Hv as ->. }
  split; [exact H|].
  exact (remediate_skips_claimless_volumes sample.promptControllers 0
           (kubernetes.NewClient "minikube") (sample.registry sample.stagingDriver)
           cases.claimlessMetrics (sample.scenarioCluster, []) H).
Defined.

(** ** Driver discovery and health pass *)

Lemma Split_cons s : exists piece pieces, startup.Split s = piece :: pieces.
Proof.
  induction s as [|c rest (piece & pieces & IH)]; simpl; [by eexists _, _|].
  destruct (Ascii.eqb c ","); [by eexists _, _|]. rewrite IH. by eexists _, _.
Qed.

Lemma Split_concat s : String.concat "," (startup.Split s) = s.
Proof.
  induction s as [|c rest IH]; simpl; [done|].
  destruct (Split_cons rest) as (piece & pieces & E). rewrite E in *.
  destruct (Ascii.eqb_spec c ",") as [->|_].
  - change (String.concat "," ("" :: piece :: pieces))
      with ("" +:+ "," +:+ String.concat "," (piece :: pieces)).
    by rewrite IH.
  - destruct pieces as [|piece' pieces]; [simpl in *; by rewrite IH|].
    change (String.concat "," (String c piece :: piece' :: pieces))
      with (String c (piece +:+ "," +:+ String.concat "," (piece' :: pieces))).
    f_equal. exact IH.
Qed.

(** X17. The guard on an empty endpoint list never fires: strings.Split
    always yields at least one piece, so no value of the endpoints flag
    makes main exit with the no-endpoints message.  An empty flag gives the
    single endpoint of empty address, and joining the pieces with commas
    gives the flag back. *)
Theorem endpoints_guard_never_fires :
  forall (Endpoint : string) (logger : Logger),
    startup.endpointsOf Endpoint logger = (logger, startup.Running (startup.Split Endpoint)) /\
    1 <= length (startup.Split Endpoint) /\
    String.concat "," (startup.Split Endpoint) = Endpoint /\
    startup.endpointsOf "" logger = (logger, startup.Running [""]).
Proof.
  intros Endpoint logger. unfold startup.endpointsOf.
  destruct (Split_cons Endpoint) as (piece & pieces & E).
  split; [by rewrite E|]. split; [rewrite E; simpl; lia|].
  split; [apply Split_concat|done].
Qed.

Lemma GetDriverName_reports client logger :
  snd (csi.GetDriverName client logger)
  = match csi.GetPluginInfo (csi.IdentityClient_ client) with
    | (Some resp, None) => (csi.Name resp, None)
    | (None, None) => ("", Some (errorString "response is nil"))
    | (_, Some e) => ("", Some e)
    end.
Proof.
  unfold csi.GetDriverName.
  by destruct (csi.GetPluginInfo (csi.IdentityClient_ client)) as [[resp|] [e|]].
Qed.






(** X19. Discovery is all or nothing: it exits with status 1 exactly when
    some endpoint cannot be connected or does not report a name (a failed
    identity call or a nil response; an empty name is accepted), and it
    never panics. *)
Theorem discover_exits_iff_an_endpoint_fails :
  forall (connect : string -> api.result csi.client) (endpoints : list string)
         (drivers : gmap string csi.client) (logger : Logger),
    ((exists registry, snd (startup.discover connect endpoints drivers logger)
                       = startup.Running registry) \/
     snd (startup.discover connect endpoints drivers logger) = startup.Exited 1%Z) /\
    (snd (startup.discover connect endpoints drivers logger) = startup.Exited 1%Z <->
     exists endpoint,
       endpoint ∈ endpoints /\
       forall client, connect endpoint = Ok client -> ~ exists name, startup.reports client name).
Proof.
  intros connect endpoints. induction endpoints as [|endpoint endpoints IH];
    intros drivers logger.
  - simpl. split; [left; by eexists|]. split; [done|]. by intros (? & ?%elem_of_nil & _).
  - simpl. unfold startup.NewClient.
    destruct (connect endpoint) as [client|e] eqn:Hc; simpl.
    + pose proof (GetDriverName_reports client
                    (Info logger "creating new gRPC connection")) as Hname.
      destruct (csi.GetDriverName client _) as [logger1 [name err]]. simpl in Hname.
      assert (Hrep : err = None <-> exists name', startup.reports client name').
      { unfold startup.reports.
        destruct (csi.GetPluginInfo (csi.IdentityClient_ client)) as [[resp|] [e|]];
          injection Hname as -> ->; split; try done;
          try (by intros (? & ? & ? & _)). intros _. by eexists _, _. }
      destruct err as [e|]; simpl.
      * split; [by right|]. split; [intros _|done].
        exists endpoint. split; [by left|]. intros client' Hc'. rewrite Hc in Hc'.
        injection Hc' as <-. intros Hn. by apply Hrep in Hn.
      * destruct (IH (<[name := client]> drivers) logger1) as [IH1 IH2].
        split; [exact IH1|]. rewrite IH2. split.
        -- intros (e & He & Hf). exists e. split; [by right|done].
        -- intros (e & [->|He]%elem_of_cons & Hf); [|by exists e].
           exfalso. apply (Hf client Hc). by apply Hrep.
    + split; [by right|]. split; [intros _|done].
      exists endpoint. split; [by left|]. intros client Hc'. by rewrite Hc in Hc'.
Qed.

Lemma IsHealthy_panic_iff client logger :
  (exists msg, snd (csi.IsHealthy client logger) = Panic msg) <->
  startup.probeWithoutReady client.
Proof.
  destruct client as [close nc [info [[[[[ready]|]]|] [e|]]]];
    unfold csi.IsHealthy, startup.probeWithoutReady; simpl;
    (split; [intros [msg H]|intros (resp & H1 & H2)]); simplify_eq/=; eauto.
Qed.

Lemma healthCheck_order order logger :
  (forall code, snd (startup.healthCheck order logger) <> startup.Exited code) /\
  ((exists msg, snd (startup.healthCheck order logger) = startup.Panicked msg) <->
   exists name client, (name, client) ∈ order /\ startup.probeWithoutReady client) /\
  ((forall name client, (name, client) ∈ order -> ~ startup.probeWithoutReady client) ->
   snd (startup.healthCheck order logger) = startup.Running tt).
Proof.
  revert logger. induction order as [|[name client] order IH]; intros logger.
  - simpl. split; [done|]. split; [|done].
    split; [by intros [? ?]|by intros (? & ? & ?%elem_of_nil & _)].
  - cbn [startup.healthCheck].
    pose proof (IsHealthy_panic_iff client logger) as Hpanic.
    destruct (csi.IsHealthy client logger) as [logger1 [[healthy err]|msg]]; simpl in Hpanic.
    + assert (Hok : ~ startup.probeWithoutReady client).
      { intros H. apply Hpanic in H as [? ?]. done. }
      assert (Hrest : forall logger2,
                 (forall code, snd (startup.healthCheck order logger2) <> startup.Exited code) /\
                 ((exists msg, snd (startup.healthCheck order logger2) = startup.Panicked msg) <->
                  exists name0 client0,
                    (name0, client0) ∈ (name, client) :: order /\
                    startup.probeWithoutReady client0) /\
                 ((forall name0 client0,
                      (name0, client0) ∈ (name, client) :: order ->
                      ~ startup.probeWithoutReady client0) ->
                  snd (startup.healthCheck order logger2) = startup.Running tt)).
      { intros logger2. destruct (IH logger2) as (H1 & H2 & H3).
        split; [done|]. split.
        - rewrite H2. split.
          + intros (n & c & Hin & Hbad). exists n, c. split; [by right|done].
          + intros (n & c & [[= -> ->]|Hin]%elem_of_cons & Hbad); [done|by exists n, c].
        - intros Hall. apply H3. intros n c Hin. apply (Hall n c). by right. }
      destruct err; [apply Hrest|]. destruct healthy; simpl; apply Hrest.
    + simpl. split; [done|]. split; [|intros Hall].
      * split; [intros _|intros _; by eexists].
        exists name, client. split; [by left|]. apply Hpanic. by eexists.
      * exfalso. apply (Hall name client); [by left|]. apply Hpanic. by eexists.
Qed.

(** X20. The health pass is not fatal except by panic.  In whatever order
    the registry is visited, the pass never exits the process; it panics
    exactly when some registered driver answers the probe, without error,
    with a response whose ready field is unset; otherwise it goes on to
    the remediation loop, whatever the drivers answered. *)
Theorem health_pass_outcome :
  forall (registry : gmap string csi.client) (order : list (string * csi.client))
         (logger : Logger),
    order ≡ₚ map_to_list registry ->
    (forall code, snd (startup.healthCheck order logger) <> startup.Exited code) /\
    ((exists msg, snd (startup.healthCheck order logger) = startup.Panicked msg) <->
     exists name client, registry !! name = Some client /\ startup.probeWithoutReady client) /\
    ((forall name client, registry !! name = Some client -> ~ startup.probeWithoutReady client) ->
     snd (startup.healthCheck order logger) = startup.Running tt).
Proof.
  intros registry order logger Horder.
  assert (Hin : forall name client,
             (name, client) ∈ order <-> registry !! name = Some client).
  { intros name client. rewrite Horder. apply elem_of_map_to_list. }
  destruct (healthCheck_order order logger) as (H1 & H2 & H3).
  split; [exact H1|]. split.
  - rewrite H2. split; intros (n & c & Hl & Hbad); exists n, c; (split; [by apply Hin|done]).
  - intros Hall. apply H3. intros n c Hl. apply (Hall n c). by apply Hin.
Qed.

Lemma health_pass_outcome_witness :
  let registry : gmap string csi.client :=
    {[ "silent.example.com" := cases.silentDriver ]} in
  map_to_list registry ≡ₚ map_to_list registry /\
  exists msg, snd (startup.healthCheck (map_to_list registry) []) = startup.Panicked msg.
Proof.
  intros registry. split; [reflexivity|].
  destruct (health_pass_outcome registry (map_to_list registry) [] (reflexivity _))
    as (_ & Hpanic & _).
  apply Hpanic. exists "silent.example.com", cases.silentDriver.
  split; [reflexivity|]. eexists. split; reflexivity.
Defined.
